(** * docen: a Dockerfile generator for Go projects

    Shallow embedding of [docen.go] and verification of its specification.

    Go strings are byte sequences and are modelled by [string] (a list of
    8-bit [ascii] characters).  Go maps [map[string]bool] are modelled by
    [gmap string bool]; a map value may be [nil], hence the [option].  A Go
    function that may panic returns an [outcome].  The three process-wide
    hooks of the source ([readDir], [runVer], [openFile]) and the file
    system behind [os.WriteFile] are gathered in an environment record. *)

From Stdlib Require Import Ascii.
From stdpp Require Import gmap strings list.

Local Open Scope char_scope.
Local Open Scope stdpp_scope.

#[local] Arguments Ascii.eqb : simpl never.
#[local] Arguments Ascii.leb : simpl never.

(** ** Outcomes of Go calls *)

(** The two run-time panics the source can raise. *)
Inductive panic : Type :=
  | NilMapAssignment   (* assignment to entry in nil map *)
  | IndexOutOfRange.   (* index out of range *)

Inductive outcome (A : Type) : Type :=
  | Done (a : A)
  | Panics (p : panic).
Arguments Done {A} a.
Arguments Panics {A} p.

Global Instance outcome_ret : MRet outcome := λ A a, Done a.

Global Instance outcome_bind : MBind outcome := λ A B k m,
  match m with
  | Done a => k a
  | Panics p => Panics p
  end.

(** A Go [error] value, and the [(T, error)] result pair. *)
Inductive error : Type := MkError (msg : string).

Inductive result (A : Type) : Type :=
  | Ok (a : A)
  | Err (e : error).
Arguments Ok {A} a.
Arguments Err {A} e.

(** ** Byte strings *)

Definition nl : string := String "010" "".
Definition cr : ascii := "013".
Definition dquote : string := String "034" "".

Fixpoint str_take (n : nat) (s : string) : string :=
  match n, s with
  | S k, String c s' => String c (str_take k s')
  | _, _ => ""
  end.

Fixpoint str_all (P : ascii → bool) (s : string) : bool :=
  match s with
  | "" => true
  | String c s' => P c && str_all P s'
  end.

Fixpoint str_map (f : ascii → ascii) (s : string) : string :=
  match s with
  | "" => ""
  | String c s' => String (f c) (str_map f s')
  end.

(** [s[len(s)-1]], when [s] is not empty. *)
Fixpoint str_last (s : string) : option ascii :=
  match s with
  | "" => None
  | String c "" => Some c
  | String _ s' => str_last s'
  end.

(** [s[:len(s)-1]] *)
Fixpoint str_init (s : string) : string :=
  match s with
  | "" => ""
  | String _ "" => ""
  | String c s' => String c (str_init s')
  end.

(** [bytes.IndexByte]: the prefix before the first [c], if [c] occurs. *)
Fixpoint before_byte (c : ascii) (s : string) : option string :=
  match s with
  | "" => None
  | String x s' =>
      if Ascii.eqb x c then Some ""
      else String x <$> before_byte c s'
  end.

(** [starts_with p s]: [p] is a prefix of [s] ([strings.HasPrefix]). *)
Fixpoint starts_with (p s : string) : bool :=
  match p, s with
  | "", _ => true
  | String a p', String b s' => Ascii.eqb a b && starts_with p' s'
  | String _ _, "" => false
  end.

(** [contains p s]: [p] occurs in [s] ([strings.Contains]). *)
Fixpoint contains (p s : string) : bool :=
  starts_with p s ||
  match s with
  | "" => false
  | String _ s' => contains p s'
  end.

(** The text written by a [strings.Builder]: the chunks in writing order. *)
Fixpoint str_concat (l : list string) : string :=
  match l with
  | [] => ""
  | s :: l' => s +:+ str_concat l'
  end.

(** ** Package [strings] *)

Module GoStrings.

(** [strings.ReplaceAll s old new] for a non-empty [old] (every call of the
    source passes a non-empty literal): the non-overlapping occurrences of
    [old] are replaced from left to right.  [skip] counts the bytes of the
    occurrence just replaced that are still to be passed over. *)
Fixpoint replace_go (old new : string) (skip : nat) (s : string) : string :=
  match s with
  | "" => ""
  | String c s' =>
      match skip with
      | S k => replace_go old new k s'
      | O =>
          if starts_with old s
          then new +:+ replace_go old new (String.length old - 1) s'
          else String c (replace_go old new 0 s')
      end
  end.

Definition ReplaceAll (s old new : string) : string :=
  replace_go old new 0 s.

(** [strings.Split s sep] for a non-empty [sep]: the pieces between the
    non-overlapping occurrences of [sep]; one piece more than there are
    occurrences, so the slice is never empty.  [cur] is the piece being
    read. *)
Fixpoint split_go (sep : string) (skip : nat) (cur : string) (s : string)
  : list string :=
  match s with
  | "" => [cur]
  | String c s' =>
      match skip with
      | S k => split_go sep k cur s'
      | O =>
          if starts_with sep s
          then cur :: split_go sep (String.length sep - 1) "" s'
          else split_go sep 0 (cur +:+ String c "") s'
      end
  end.

Definition Split (s sep : string) : list string := split_go sep 0 "" s.

(** [strings.Join elems sep] *)
Fixpoint Join (elems : list string) (sep : string) : string :=
  match elems with
  | [] => ""
  | [e] => e
  | e :: rest => e +:+ sep +:+ Join rest sep
  end.

End GoStrings.

(** ** Package [regexp], for the one expression the source compiles *)

Module Regexp.

Definition is_digit (c : ascii) : bool := Ascii.leb "0" c && Ascii.leb c "9".

(** The character class [[0-9.]]. *)
Definition version_char (c : ascii) : bool := is_digit c || Ascii.eqb c ".".

(** The match under way, if any, is complete. *)
Definition flush (cur : string) : list string :=
  match cur with
  | "" => []
  | _ => [cur]
  end.

(** [regexp.MustCompile("[cls]+").FindAllString(s, -1)]: the successive
    leftmost matches of a greedy one-or-more repetition of a byte class,
    that is the maximal runs of class bytes, from left to right.  [cur]
    is the match being extended. *)
Fixpoint find_go (cls : ascii → bool) (cur : string) (s : string)
  : list string :=
  match s with
  | "" => flush cur
  | String c s' =>
      if cls c then find_go cls (cur +:+ String c "") s'
      else flush cur ++ find_go cls "" s'
  end.

Definition FindAllString (cls : ascii → bool) (s : string) : list string :=
  find_go cls "" s.

End Regexp.

(** ** Package [bufio] *)

Module Bufio.

(** [bufio.NewReader] allocates a buffer of this many bytes. *)
Definition defaultBufSize : nat := 4096.

(** [line] without one trailing carriage return. *)
Definition drop_cr (line : string) : string :=
  match str_last line with
  | Some c => if Ascii.eqb c cr then str_init line else line
  | None => line
  end.

(** The first [ReadLine] of [bufio.NewReader(r)], where [r] delivers the
    bytes [content] and then an error (end of file, or any other: ReadLine
    treats them alike).  [None] is the call returning a non-nil error.
    - a line feed among the first [defaultBufSize] bytes ends the line; it
      is dropped, with a carriage return just before it;
    - otherwise a full buffer is returned as the line (a prefix of it),
      a final carriage return being put back;
    - otherwise the input ended: the bytes read are the line, unless there
      are none, which is the error. *)
Definition ReadLine (content : string) : option string :=
  let buf := str_take defaultBufSize content in
  match before_byte "010" buf with
  | Some line => Some (drop_cr line)
  | None =>
      if decide (defaultBufSize ≤ String.length content) then Some (drop_cr buf)
      else match content with
           | "" => None
           | _ => Some content
           end
  end.

End Bufio.

(** ** Package [path/filepath], with the separator of Unix *)

Module Filepath.

(** One path element processed by [Clean]; [out] holds the elements kept
    so far, the last one first.  A kept [".."] belongs to the leading
    [../..] prefix of a path that is not rooted and cannot be removed. *)
Definition clean_elem (rooted : bool) (out : list string) (e : string)
  : list string :=
  if decide (e = "" ∨ e = ".") then out
  else if decide (e = "..") then
    match out with
    | top :: rest =>
        if decide (top = "..") then (if rooted then out else e :: out)
        else rest
    | [] => if rooted then out else [e]
    end
  else e :: out.

(** [filepath.Clean]: the shortest path equivalent to [path] by lexical
    processing alone. *)
Definition Clean (path : string) : string :=
  match path with
  | "" => "."
  | String c _ =>
      let rooted := Ascii.eqb c "/" in
      let out := fold_left (clean_elem rooted) (GoStrings.Split path "/") [] in
      let s := (if rooted then "/" else "") +:+ GoStrings.Join (rev out) "/" in
      match s with
      | "" => "."
      | _ => s
      end
  end.

(** [i+1] for the index [i] of the last separator of [path]; [0] when there
    is none. *)
Fixpoint last_sep_end (path : string) : nat :=
  match path with
  | "" => 0
  | String c path' =>
      match last_sep_end path' with
      | S k => S (S k)
      | O => if Ascii.eqb c "/" then 1 else 0
      end
  end.

(** [filepath.Dir]: all but the last element of [path], cleaned. *)
Definition Dir (path : string) : string :=
  Clean (str_take (last_sep_end path) path).

End Filepath.

(** ** The environment of the generator *)

(** What the source reads of an [fs.FileInfo]. *)
Record FileInfo : Type := { Name : string; IsDir : bool }.

(** [runVer], [readDir] and [openFile] are the hooks of the source (by
    default [runtime.Version], [ioutil.ReadDir] and [os.Open]); an opened
    file is given by the bytes it delivers.  [writeFile] is [os.WriteFile]:
    [None] is the nil error. *)
Record Env : Type := {
  runVer : string;
  readDir : string → result (list FileInfo);
  openFile : string → result string;
  writeFile : string → string → N → option error
}.

(** ** docen.go *)

Definition defaultAppName : string := "app".
Definition defaultTagVersion : string := "alpine".

Definition goModFile : string := "go.mod".
Definition vendorFolderName : string := "vendor".
Definition additionalFolders : gmap string bool :=
  list_to_map
    [("static", true); ("assets", true); ("templates", true); ("config", true)].

(** [map[string]bool]; [None] is the nil map. *)
Definition additionalInfo : Type := option (gmap string bool).

Record Docen : Type := {
  timezone : string;
  version : string;
  port : string;
  additionFolders : additionalInfo;
  additionFiles : additionalInfo;
  isTestMode : bool
}.

(** [&Docen{}]: the zero value. *)
Definition zeroDocen : Docen :=
  {| timezone := ""; version := ""; port := "";
     additionFolders := None; additionFiles := None; isTestMode := false |}.

Definition newAdditionalInfo : additionalInfo := Some ∅.

(** [a[e] = true]; Go panics when [a] is nil. *)
Definition additionalInfo_set (a : additionalInfo) (e : string)
  : outcome additionalInfo :=
  match a with
  | None => Panics NilMapAssignment
  | Some m => Done (Some (<[e := true]> m))
  end.

(** The keys a [range] over the map visits, in the order of the map's
    representation; Go visits them in an order of its choosing. *)
Definition keys (a : additionalInfo) : list string :=
  match a with
  | None => []
  | Some m => (map_to_list m).*1
  end.

Definition createDockerfile (env : Env) (data : string) : option error :=
  writeFile env "Dockerfile" data 420%N.   (* 0644 *)

Definition getProjectFiles (env : Env) : result (list FileInfo) :=
  match readDir env "./" with
  | Err e => Err e
  | Ok files => Ok files
  end.

Definition isVendorMode (env : Env) : bool :=
  match getProjectFiles env with
  | Err _ => false
  | Ok files =>
      existsb (λ f, IsDir f && bool_decide (Name f = vendorFolderName)) files
  end.

(** The body of the loop of [getAdditionalFolders]. *)
Definition addFolder (folders : outcome additionalInfo) (f : FileInfo)
  : outcome additionalInfo :=
  a ← folders;
  if IsDir f && default false (additionalFolders !! Name f)
  then additionalInfo_set a (Name f)
  else Done a.

Definition getAdditionalFolders (env : Env) : outcome additionalInfo :=
  let folders := newAdditionalInfo in
  match getProjectFiles env with
  | Err _ => Done folders
  | Ok files => fold_left addFolder files (Done folders)
  end.

(** The first line of the manifest, once read. *)
Definition parseLine (data : string) : outcome string :=
  let module := GoStrings.ReplaceAll data "module " "" in
  match module with
  | "" => Panics IndexOutOfRange                      (* module[0] *)
  | String c _ =>
      let module :=
        if Ascii.eqb c "034" then GoStrings.ReplaceAll module dquote ""
        else module in
      let name := GoStrings.Split module "/" in
      match name !! (length name - 1) with
      | Some seg => Done (GoStrings.ReplaceAll seg "." "_")
      | None => Panics IndexOutOfRange
      end
  end.

(** [r] is given by the bytes it delivers. *)
Definition parsePackageName (r : string) : outcome string :=
  match Bufio.ReadLine r with
  | None => Done defaultAppName
  | Some data => parseLine data
  end.

Definition getPackageName (env : Env) : outcome string :=
  match openFile env goModFile with
  | Err _ => Done defaultAppName
  | Ok file => parsePackageName file
  end.

Definition getVersion (env : Env) : string :=
  let v := runVer env in
  let version := Regexp.FindAllString Regexp.version_char v in
  if decide (length version = 0) then defaultTagVersion
  else GoStrings.Join version "" +:+ "-" +:+ defaultTagVersion.

Definition New (env : Env) : outcome Docen :=
  folders ← getAdditionalFolders env;
  Done {| timezone := ""; version := getVersion env; port := "";
          additionFolders := folders; additionFiles := newAdditionalInfo;
          isTestMode := false |}.

Definition SetGoVersion (v : string) (d : Docen) : Docen :=
  {| timezone := timezone d; version := v +:+ "-" +:+ defaultTagVersion;
     port := port d; additionFolders := additionFolders d;
     additionFiles := additionFiles d; isTestMode := isTestMode d |}.

Definition SetPort (p : string) (d : Docen) : Docen :=
  {| timezone := timezone d; version := version d; port := p;
     additionFolders := additionFolders d; additionFiles := additionFiles d;
     isTestMode := isTestMode d |}.

Definition SetTimezone (tz : string) (d : Docen) : Docen :=
  {| timezone := tz; version := version d; port := port d;
     additionFolders := additionFolders d; additionFiles := additionFiles d;
     isTestMode := isTestMode d |}.

Definition SetAdditionalFolder (path : string) (d : Docen) : outcome Docen :=
  folders ← additionalInfo_set (additionFolders d) path;
  Done {| timezone := timezone d; version := version d; port := port d;
          additionFolders := folders; additionFiles := additionFiles d;
          isTestMode := isTestMode d |}.

Definition SetAdditionalFile (path : string) (d : Docen) : outcome Docen :=
  files ← additionalInfo_set (additionFiles d) path;
  SetAdditionalFolder (Filepath.Dir path)
    {| timezone := timezone d; version := version d; port := port d;
       additionFolders := additionFolders d; additionFiles := files;
       isTestMode := isTestMode d |}.

Definition SetTestMode (mode : bool) (d : Docen) : Docen :=
  {| timezone := timezone d; version := version d; port := port d;
     additionFolders := additionFolders d; additionFiles := additionFiles d;
     isTestMode := mode |}.

(** The orders in which the three [range] loops of [GenerateDockerfile]
    visit the keys of their map. *)
Record ranges : Type := {
  mkdir_range : list string;
  folders_range : list string;
  files_range : list string
}.

(** Each loop visits every key of its map once. *)
Definition ranges_of (d : Docen) (r : ranges) : Prop :=
  mkdir_range r ≡ₚ keys (additionFolders d) ∧
  folders_range r ≡ₚ keys (additionFolders d) ∧
  files_range r ≡ₚ keys (additionFiles d).

Definition mkdirDirective (packageName v : string) : string :=
  "RUN mkdir -p /" +:+ packageName +:+ "/" +:+ v +:+ nl.

Definition copyDirective (packageName v : string) : string :=
  "COPY --from=builder /" +:+ packageName +:+ "/" +:+ v +:+ " /"
    +:+ packageName +:+ "/" +:+ v +:+ nl.

Definition testDirective : string := "RUN CGO_ENABLED=0 go test ./..." +:+ nl.

Definition buildCommand : string :=
  "RUN CGO_ENABLED=0 GOOS=linux GOARCH=amd64 go build ".

Definition buildDirective (vendorTag packageName : string) : string :=
  buildCommand +:+ vendorTag +:+ " -ldflags=" +:+ dquote +:+ "-w -s"
    +:+ dquote +:+ " -o /" +:+ packageName +:+ nl.

(** The strings [GenerateDockerfile] writes to its builder, in order. *)
Definition directives (env : Env) (packageName : string) (r : ranges)
  (d : Docen) : list string :=
  [ "FROM golang:" +:+ version d +:+ " as builder" +:+ nl;
    "RUN apk update && apk add --no-cache git ca-certificates tzdata && update-ca-certificates" +:+ nl;
    "RUN adduser -D -g '' appuser" +:+ nl;
    "RUN mkdir -p /" +:+ packageName +:+ nl ]
  ++ map (mkdirDirective packageName) (mkdir_range r)
  ++ [ "COPY . /" +:+ packageName +:+ nl;
       "WORKDIR /" +:+ packageName +:+ nl ]
  ++ (if isTestMode d then [testDirective] else [])
  ++ (let vendorTag := if isVendorMode env then "-mod=vendor" else "" in
      [ buildDirective vendorTag packageName ])
  ++ [ "FROM scratch" +:+ nl;
       "COPY --from=builder /usr/share/zoneinfo /usr/share/zoneinfo" +:+ nl;
       "COPY --from=builder /etc/ssl/certs/ca-certificates.crt /etc/ssl/certs/" +:+ nl;
       "COPY --from=builder /etc/passwd /etc/passwd" +:+ nl ]
  ++ (if decide (timezone d ≠ "") then ["ENV TZ=" +:+ timezone d +:+ nl] else [])
  ++ [ "COPY --from=builder /" +:+ packageName +:+ " /" +:+ packageName +:+ nl ]
  ++ map (copyDirective packageName) (folders_range r)
  ++ map (copyDirective packageName) (files_range r)
  ++ [ "USER appuser" +:+ nl ]
  ++ (if decide (port d ≠ "") then ["EXPOSE " +:+ port d +:+ nl] else [])
  ++ [ "ENTRYPOINT [" +:+ dquote +:+ "/" +:+ packageName +:+ dquote +:+ "]" +:+ nl ].

(** [data.String()] *)
Definition dockerfileText (env : Env) (packageName : string) (r : ranges)
  (d : Docen) : string :=
  str_concat (directives env packageName r d).

(** The part of [GenerateDockerfile] before the call of [createDockerfile]:
    the text assembled in the builder. *)
Definition assembledText (env : Env) (r : ranges) (d : Docen)
  : outcome string :=
  packageName ← getPackageName env;
  Done (dockerfileText env packageName r d).

Definition GenerateDockerfile (env : Env) (r : ranges) (d : Docen)
  : outcome (option error) :=
  data ← assembledText env r d;
  let err := createDockerfile env data in
  Done err.

(** * Vocabulary of the specification *)

(** [p] occurs in [t]. *)
Definition occurs (p t : string) : Prop := ∃ a b, t = a +:+ p +:+ b.

(** [t] contains the strings [ps], in this order and without overlap. *)
Fixpoint in_order (ps : list string) (t : string) : Prop :=
  match ps with
  | [] => True
  | p :: ps' => ∃ a b, t = a +:+ p +:+ b ∧ in_order ps' b
  end.

Fixpoint str_drop (n : nat) (s : string) : string :=
  match n, s with
  | S k, String _ s' => str_drop k s'
  | _, _ => s
  end.

(** What follows the first occurrence of [p] in [s]. *)
Fixpoint after_first (p s : string) : option string :=
  if starts_with p s then Some (str_drop (String.length p) s)
  else match s with
       | "" => None
       | String _ s' => after_first p s'
       end.

(** The decision procedure for [in_order]: each string is looked for after
    the first occurrence of the one before. *)
Fixpoint in_order_b (ps : list string) (t : string) : bool :=
  match ps with
  | [] => true
  | p :: ps' =>
      match after_first p t with
      | Some b => in_order_b ps' b
      | None => false
      end
  end.

(** ** The scenario of the package example *)

(** The chain of calls of [ExampleNew]. *)
Definition scenario (env : Env) : outcome Docen :=
  d ← New env;
  d ← SetAdditionalFolder "my-folder/some-files"
        (SetTestMode true (SetTimezone "Europe/Moscow"
          (SetPort "3000" (SetGoVersion "1.14.9" d))));
  SetAdditionalFile "another-folder/some-files/file" d.

Definition vendorTagOf (env : Env) : string :=
  if isVendorMode env then "-mod=vendor" else "".

(** The directives of the scenario in the order in which the text has
    them. *)
Definition scenario_order (env : Env) (packageName : string) : list string :=
  [ "FROM golang:1.14.9-alpine as builder" +:+ nl;
    testDirective;
    buildDirective (vendorTagOf env) packageName;
    "ENV TZ=Europe/Moscow" +:+ nl;
    copyDirective packageName "my-folder/some-files";
    copyDirective packageName "another-folder/some-files/file";
    "EXPOSE 3000" +:+ nl ].

(** The same directives, the expose directive moved before the timezone
    directive. *)
Definition scenario_order_expose_first (env : Env) (packageName : string)
  : list string :=
  [ "FROM golang:1.14.9-alpine as builder" +:+ nl;
    testDirective;
    buildDirective (vendorTagOf env) packageName;
    "EXPOSE 3000" +:+ nl;
    "ENV TZ=Europe/Moscow" +:+ nl;
    copyDirective packageName "my-folder/some-files";
    copyDirective packageName "another-folder/some-files/file" ].

(** A working directory with a manifest and no directory. *)
Definition env1 : Env :=
  {| runVer := "go1.22.1";
     readDir := λ _, Ok [ {| Name := "go.mod"; IsDir := false |};
                          {| Name := "main.go"; IsDir := false |} ];
     openFile := λ name,
       if decide (name = "go.mod")
       then Ok ("module github.com/lobz1g/docen" +:+ nl +:+ nl +:+ "go 1.22" +:+ nl)
       else Err (MkError "open: no such file or directory");
     writeFile := λ _ _ _, None |}.

(** The ranges that visit the keys in the order of [keys]. *)
Definition ranges_by_keys (d : Docen) : ranges :=
  {| mkdir_range := keys (additionFolders d);
     folders_range := keys (additionFolders d);
     files_range := keys (additionFiles d) |}.

(** The value a call returned, or [dflt] when it panicked. *)
Definition returned {A : Type} (dflt : A) (m : outcome A) : A :=
  match m with
  | Done a => a
  | Panics _ => dflt
  end.

Definition scenario1 : Docen := Eval vm_compute in returned zeroDocen (scenario env1).

(** ** Runs of a class of characters *)

(** [t] does not begin with a character of the class. *)
Definition starts_outside (cls : ascii → bool) (t : string) : Prop :=
  match t with
  | "" => True
  | String c _ => cls c = false
  end.

Definition outside (cls : ascii → bool) (c : ascii) : bool := negb (cls c).

(** [maximal_runs cls s rs]: [rs] are the contiguous runs of class characters
    of [s], each as long as possible, in the order of their appearance.  [s]
    is a gap without class characters, or a gap, a non-empty run and a rest
    that does not go on with a class character. *)
Inductive maximal_runs (cls : ascii → bool) : string → list string → Prop :=
  | runs_none g :
      str_all (outside cls) g = true →
      maximal_runs cls g []
  | runs_next g r t rs :
      str_all (outside cls) g = true →
      r ≠ "" →
      str_all cls r = true →
      starts_outside cls t →
      maximal_runs cls t rs →
      maximal_runs cls (g +:+ r +:+ t) (r :: rs).

(** A version string with a period and no digit. *)
Definition env_devel : Env :=
  {| runVer := "devel.go";
     readDir := λ _, Ok [];
     openFile := λ _, Err (MkError "open go.mod: no such file or directory");
     writeFile := λ _ _ _, None |}.

(** ** The project name *)

Definition is_separator (c : ascii) : bool := Ascii.eqb c "/".
Definition is_quote (c : ascii) : bool := Ascii.eqb c "034".

(** [seg] is the last "/"-delimited segment of [X]. *)
Definition last_segment (X seg : string) : Prop :=
  str_all (outside is_separator) seg = true ∧
  (X = seg ∨ ∃ pre, X = pre +:+ "/" +:+ seg).

(** Every period replaced by an underscore. *)
Definition periods_to_underscores (s : string) : string :=
  str_map (λ c, if Ascii.eqb c "." then "_"%char else c) s.

(** A manifest that begins with an empty line. *)
Definition blank_line_manifest : string :=
  nl +:+ "module github.com/lobz1g/docen" +:+ nl.

Definition env_blank : Env :=
  {| runVer := "go1.22.1";
     readDir := λ _, Ok [];
     openFile := λ _, Ok blank_line_manifest;
     writeFile := λ _ _ _, None |}.


(** ** Repeated calls *)

(** [n] calls of [f] in a row, each on the value the one before returned. *)
Fixpoint repeat_call {A : Type} (n : nat) (f : A → outcome A) (a : A)
  : outcome A :=
  match n with
  | O => Done a
  | S k => a' ← f a; repeat_call k f a'
  end.

(** [k] is a member of the set [a]. *)
Definition member (k : string) (a : additionalInfo) : Prop :=
  ∃ m, a = Some m ∧ m !! k = Some true.

(** ** The vendor directory *)

(** The listing of the working directory succeeds and has a directory named
    vendor. *)
Definition vendor_listed (env : Env) : Prop :=
  ∃ files f,
    readDir env "./" = Ok files ∧ f ∈ files ∧
    IsDir f = true ∧ Name f = "vendor".

(** A working directory with a vendor directory. *)
Definition env_vendor : Env :=
  {| runVer := "go1.22.1";
     readDir := λ _, Ok [ {| Name := "config"; IsDir := true |};
                          {| Name := "vendor"; IsDir := true |} ];
     openFile := λ _, Ok ("module github.com/lobz1g/docen" +:+ nl);
     writeFile := λ _ _ _, None |}.

(** The configuration [New] makes in [env1], a file added to it, and the
    text then assembled. *)
Definition config1 : Docen := Eval vm_compute in returned zeroDocen (New env1).

Definition config1_makefile : Docen :=
  Eval vm_compute in returned zeroDocen (SetAdditionalFile "Makefile" config1).

Definition text1_makefile : string :=
  Eval vm_compute in
    returned "" (assembledText env1 (ranges_by_keys config1_makefile)
                   config1_makefile).

(** ** Chains of setter calls *)

(** One call of a setter of the builder. *)
Inductive call : Type :=
  | CallSetGoVersion (v : string)
  | CallSetPort (p : string)
  | CallSetTimezone (tz : string)
  | CallSetAdditionalFolder (path : string)
  | CallSetAdditionalFile (path : string)
  | CallSetTestMode (mode : bool).

Definition do_call (c : call) (d : Docen) : outcome Docen :=
  match c with
  | CallSetGoVersion v => Done (SetGoVersion v d)
  | CallSetPort p => Done (SetPort p d)
  | CallSetTimezone tz => Done (SetTimezone tz d)
  | CallSetAdditionalFolder path => SetAdditionalFolder path d
  | CallSetAdditionalFile path => SetAdditionalFile path d
  | CallSetTestMode mode => Done (SetTestMode mode d)
  end.

(** The calls of a chain [d.A().B()...], from left to right. *)
Fixpoint do_calls (cs : list call) (d : Docen) : outcome Docen :=
  match cs with
  | [] => Done d
  | c :: cs' => d' ← do_call c d; do_calls cs' d'
  end.

(** ** The working directory *)

(** The names of the allow-list [additionalFolders]. *)
Definition allow_listed (n : string) : Prop :=
  n = "static" ∨ n = "assets" ∨ n = "templates" ∨ n = "config".

(** The listing of the working directory succeeds and has a directory
    named [n]. *)
Definition dir_listed (env : Env) (n : string) : Prop :=
  ∃ files f,
    readDir env "./" = Ok files ∧ f ∈ files ∧ IsDir f = true ∧ Name f = n.

(** A working directory with directories on and off the allow-list. *)
Definition env_dirs : Env :=
  {| runVer := "go1.22.1";
     readDir := λ _, Ok [ {| Name := "assets"; IsDir := true |};
                          {| Name := "cmd"; IsDir := true |};
                          {| Name := "config"; IsDir := false |};
                          {| Name := "static"; IsDir := true |} ];
     openFile := λ _, Ok ("module github.com/lobz1g/docen" +:+ String cr nl);
     writeFile := λ _ _ _, Some (MkError "open Dockerfile: permission denied") |}.

(** Both maps of the configuration are made (not nil). *)
Definition maps_made (d : Docen) : Prop :=
  is_Some (additionFolders d) ∧ is_Some (additionFiles d).

(** The calls that add to a set. *)
Definition is_add (c : call) : Prop :=
  match c with
  | CallSetAdditionalFolder _ | CallSetAdditionalFile _ => True
  | _ => False
  end.

Definition is_period (c : ascii) : bool := Ascii.eqb c ".".
Definition is_newline (c : ascii) : bool := Ascii.eqb c "010".

(** The characters of [s] that are in the class, in their order. *)
Fixpoint str_filter (cls : ascii → bool) (s : string) : string :=
  match s with
  | "" => ""
  | String c s' => if cls c then String c (str_filter cls s') else str_filter cls s'
  end.

(** An environment without a manifest. *)
Definition env_no_manifest : Env :=
  {| runVer := "go1.21rc2";
     readDir := λ _, Err (MkError "open ./: permission denied");
     openFile := λ _, Err (MkError "open go.mod: no such file or directory");
     writeFile := λ _ _ _, None |}.

(** ** The stages of the text *)

Definition runtimeStage : string := "FROM scratch" +:+ nl.

(** The directives that every text has, in their order. *)
Definition skeleton (env : Env) (packageName : string) (d : Docen)
  : list string :=
  [ "FROM golang:" +:+ version d +:+ " as builder" +:+ nl;
    "RUN apk update && apk add --no-cache git ca-certificates tzdata && update-ca-certificates" +:+ nl;
    "RUN adduser -D -g '' appuser" +:+ nl;
    "RUN mkdir -p /" +:+ packageName +:+ nl;
    "COPY . /" +:+ packageName +:+ nl;
    "WORKDIR /" +:+ packageName +:+ nl;
    buildDirective (vendorTagOf env) packageName;
    runtimeStage;
    "COPY --from=builder /usr/share/zoneinfo /usr/share/zoneinfo" +:+ nl;
    "COPY --from=builder /etc/ssl/certs/ca-certificates.crt /etc/ssl/certs/" +:+ nl;
    "COPY --from=builder /etc/passwd /etc/passwd" +:+ nl;
    "COPY --from=builder /" +:+ packageName +:+ " /" +:+ packageName +:+ nl;
    "USER appuser" +:+ nl;
    "ENTRYPOINT [" +:+ dquote +:+ "/" +:+ packageName +:+ dquote +:+ "]" +:+ nl ].

(** Other ranges for [scenario1]: the keys in the opposite order. *)
Definition ranges_reversed (d : Docen) : ranges :=
  {| mkdir_range := rev (keys (additionFolders d));
     folders_range := rev (keys (additionFolders d));
     files_range := rev (keys (additionFiles d)) |}.

(** ** Clean relative paths *)

(** A path element that [filepath.Clean] keeps as it is: not empty, not
    "." or "..", and without a separator. *)
Definition plain_elem (e : string) : Prop :=
  e ≠ "" ∧ e ≠ "." ∧ e ≠ ".." ∧ str_all (outside is_separator) e = true.

(** ** The lines of a text *)

Definition no_line_feed (s : string) : Prop :=
  str_all (outside is_newline) s = true.

(** The lines of [t]: what stands between its line feeds; [cur] is the
    line being read. *)
Fixpoint lines_from (cur t : string) : list string :=
  match t with
  | "" => [cur]
  | String c t' =>
      if is_newline c then cur :: lines_from "" t'
      else lines_from (cur +:+ String c "") t'
  end.

Definition text_lines (t : string) : list string := lines_from "" t.

(** The text has a directive of the kind [keyword]: one of its lines begins
    with the keyword. *)
Definition has_directive (keyword t : string) : Prop :=
  ∃ l, l ∈ text_lines t ∧ starts_with keyword l = true.

(** A string written to the builder that is one line: it ends with its only
    line feed. *)
Definition one_line (chunk : string) : Prop :=
  ∃ body, chunk = body +:+ nl ∧ no_line_feed body.

(** No string of the configuration has a line feed. *)
Definition one_line_config (d : Docen) : Prop :=
  no_line_feed (version d) ∧ no_line_feed (timezone d) ∧
  no_line_feed (port d) ∧
  Forall no_line_feed (keys (additionFolders d)) ∧
  Forall no_line_feed (keys (additionFiles d)).

(** The configuration of [New] in [env1] with a timezone of two lines. *)
Definition config_two_lines : Docen :=
  Eval vm_compute in SetTimezone ("UTC" +:+ nl +:+ "EXPOSE 80") config1.

(** A manifest with a comment on its first line, and no vendor directory. *)
Definition env_comment : Env :=
  {| runVer := "go1.22.1";
     readDir := λ _, Ok [ {| Name := "go.mod"; IsDir := false |} ];
     openFile := λ _,
       Ok ("module example.com/x // -mod=vendor is used" +:+ nl);
     writeFile := λ _ _ _, None |}.

(** The build command and the two build directives, as they are written. *)
Definition buildKeyword : string :=
  "RUN CGO_ENABLED=0 GOOS=linux GOARCH=amd64 go build ".

Definition buildLineVendor (packageName : string) : string :=
  "RUN CGO_ENABLED=0 GOOS=linux GOARCH=amd64 go build -mod=vendor -ldflags="
    +:+ dquote +:+ "-w -s" +:+ dquote +:+ " -o /" +:+ packageName +:+ nl.

Definition buildLinePlain (packageName : string) : string :=
  "RUN CGO_ENABLED=0 GOOS=linux GOARCH=amd64 go build  -ldflags="
    +:+ dquote +:+ "-w -s" +:+ dquote +:+ " -o /" +:+ packageName +:+ nl.

(** * Facts about byte strings *)

Section string_facts.

Lemma str_app_cons c s t : String c s +:+ t = String c (s +:+ t).
Proof. reflexivity. Qed.

Lemma str_app_nil_l t : "" +:+ t = t.
Proof. reflexivity. Qed.

Lemma str_app_nil_r s : s +:+ "" = s.
Proof. induction s as [|c s IH]; [done|]. by rewrite str_app_cons, IH. Qed.

Lemma str_app_assoc a b c : (a +:+ b) +:+ c = a +:+ b +:+ c.
Proof.
  induction a as [|x a IH]; [done|]. by rewrite !str_app_cons, IH.
Qed.

Lemma str_app_length a b :
  String.length (a +:+ b) = String.length a + String.length b.
Proof.
  induction a as [|x a IH]; [done|]. rewrite str_app_cons. simpl. by rewrite IH.
Qed.

Lemma str_app_eq_nil a b : a +:+ b = "" → a = "" ∧ b = "".
Proof. destruct a; [done|]. rewrite str_app_cons. discriminate. Qed.

Lemma str_concat_app l1 l2 :
  str_concat (l1 ++ l2) = str_concat l1 +:+ str_concat l2.
Proof.
  induction l1 as [|s l1 IH]; [done|]. simpl. by rewrite IH, str_app_assoc.
Qed.

(** Two ways of cutting one string: one tail is a tail of the other. *)
Lemma str_app_eq_app u v w b :
  u +:+ v = w +:+ b → (∃ x, v = x +:+ b) ∨ (∃ x, b = x +:+ v).
Proof.
  revert w. induction u as [|c u IH]; intros w H.
  - left. by exists w.
  - destruct w as [|c' w].
    + right. by exists (String c u).
    + rewrite !str_app_cons in H. injection H as _ H. eauto.
Qed.

Lemma starts_with_app p b : starts_with p (p +:+ b) = true.
Proof.
  induction p as [|c p IH]; [done|]. rewrite str_app_cons. simpl.
  by rewrite Ascii.eqb_refl, IH.
Qed.

Lemma starts_with_inv p s : starts_with p s = true → ∃ b, s = p +:+ b.
Proof.
  revert s. induction p as [|c p IH]; intros s H.
  - by exists s.
  - destruct s as [|c' s]; [done|]. simpl in H.
    apply andb_true_iff in H as [Hc H]. apply Ascii.eqb_eq in Hc as ->.
    destruct (IH _ H) as [b ->]. by exists b.
Qed.

Lemma starts_with_spec p s : starts_with p s = true ↔ ∃ b, s = p +:+ b.
Proof.
  split; [apply starts_with_inv|]. intros [b ->]. apply starts_with_app.
Qed.

Lemma contains_unfold p s :
  contains p s =
  starts_with p s || match s with "" => false | String _ s' => contains p s' end.
Proof. by destruct s. Qed.

Lemma contains_spec p t : contains p t = true ↔ occurs p t.
Proof.
  split.
  - induction t as [|c t IH]; rewrite contains_unfold; intros H.
    + rewrite orb_false_r in H. apply starts_with_inv in H as [b ->].
      by exists "", b.
    + apply orb_true_iff in H as [H|H].
      * apply starts_with_inv in H as [b ->]. by exists "", b.
      * destruct (IH H) as (a & b & ->). by exists (String c a), b.
  - intros (a & b & ->). induction a as [|c a IH].
    + rewrite str_app_nil_l, contains_unfold, starts_with_app. done.
    + rewrite str_app_cons, contains_unfold, IH. apply orb_true_r.
Qed.

Lemma occurs_in_concat p l : p ∈ l → occurs p (str_concat l).
Proof.
  intros (l1 & l2 & ->)%list_elem_of_split.
  exists (str_concat l1), (str_concat l2). by rewrite str_concat_app.
Qed.

End string_facts.

(** ** Strings in order *)

Section in_order_facts.

Lemma str_drop_app p b : str_drop (String.length p) (p +:+ b) = b.
Proof. induction p as [|c p IH]; [by destruct b|]. by rewrite str_app_cons. Qed.

Lemma after_first_unfold p s :
  after_first p s =
  if starts_with p s then Some (str_drop (String.length p) s)
  else match s with "" => None | String _ s' => after_first p s' end.
Proof. by destruct s. Qed.

Lemma after_first_sound p s b :
  after_first p s = Some b → ∃ a, s = a +:+ p +:+ b.
Proof.
  induction s as [|c s IH]; rewrite after_first_unfold;
    destruct (starts_with _ _) eqn:Hp; intros H; try done.
  - apply starts_with_inv in Hp as [b' Hs]. rewrite Hs, str_drop_app in H.
    injection H as <-. by exists "".
  - apply starts_with_inv in Hp as [b' Hs]. rewrite Hs, str_drop_app in H.
    injection H as <-. by exists "".
  - destruct (IH H) as [a ->]. by exists (String c a).
Qed.

(** The first occurrence leaves the longest tail. *)
Lemma after_first_complete p a b :
  ∃ b' x, after_first p (a +:+ p +:+ b) = Some b' ∧ b' = x +:+ b.
Proof.
  induction a as [|c a IH].
  - exists b, "". by rewrite str_app_nil_l, after_first_unfold,
      starts_with_app, str_drop_app.
  - rewrite str_app_cons, after_first_unfold.
    destruct (starts_with _ _) eqn:Hp; [|exact IH].
    apply starts_with_inv in Hp as [b' Hs]. rewrite Hs, str_drop_app.
    exists b'. rewrite <- str_app_cons in Hs.
    assert (String.length b ≤ String.length b') as Hlen.
    { apply (f_equal String.length) in Hs. rewrite !str_app_length in Hs. lia. }
    rewrite <- str_app_assoc in Hs. symmetry in Hs.
    apply str_app_eq_app in Hs as [[x ->]|[x ->]]; [by exists x|].
    rewrite str_app_length in Hlen. destruct x; [|simpl in Hlen; lia].
    by exists "".
Qed.

Lemma in_order_app_l ps x t : in_order ps t → in_order ps (x +:+ t).
Proof.
  destruct ps as [|p ps]; [done|]. intros (a & b & -> & H).
  exists (x +:+ a), b. by rewrite str_app_assoc.
Qed.

Lemma in_order_b_spec ps t : in_order_b ps t = true ↔ in_order ps t.
Proof.
  revert t. induction ps as [|p ps IH]; intros t; simpl; [done|]. split.
  - destruct (after_first p t) as [b|] eqn:Hb; [|done]. intros H.
    apply after_first_sound in Hb as [a ->]. exists a, b. by rewrite <- IH.
  - intros (a & b & -> & H).
    destruct (after_first_complete p a b) as (b' & x & -> & ->).
    apply IH. by apply in_order_app_l.
Qed.

(** Chunks written in some order occur in that order in the text. *)
Lemma in_order_concat ps l : ps `sublist_of` l → in_order ps (str_concat l).
Proof.
  induction 1 as [|x ps l _ IH|x ps l _ IH]; simpl.
  - done.
  - by exists "", (str_concat l).
  - by apply in_order_app_l.
Qed.

Lemma sublist_map_elem {A B} (f : A → B) (v : A) (l : list A) :
  v ∈ l → [f v] `sublist_of` map f l.
Proof.
  intros (l1 & l2 & ->)%list_elem_of_split. rewrite map_app. simpl.
  apply sublist_inserts_l, sublist_skip, sublist_nil_l.
Qed.

End in_order_facts.

(** * The configuration *)

Section configuration_facts.

Lemma keys_lookup (m : gmap string bool) k v :
  m !! k = Some v → k ∈ keys (Some m).
Proof.
  intros H. unfold keys. apply list_elem_of_fmap. exists (k, v).
  split; [done|]. by apply elem_of_map_to_list.
Qed.

Lemma keys_NoDup a : NoDup (keys a).
Proof. destruct a; simpl; [apply NoDup_fst_map_to_list|constructor]. Qed.

Lemma addFolder_fold files (m : gmap string bool) :
  ∃ m', fold_left addFolder files (Done (Some m)) = Done (Some m').
Proof.
  revert m. induction files as [|f files IH]; intros m; simpl; [by eexists|].
  destruct (IsDir f && default false (additionalFolders !! Name f)); apply IH.
Qed.

Lemma getAdditionalFolders_Done env :
  ∃ m, getAdditionalFolders env = Done (Some m).
Proof.
  unfold getAdditionalFolders, newAdditionalInfo.
  destruct (getProjectFiles env); [apply addFolder_fold|by eexists].
Qed.

(** [New] returns, with both maps made. *)
Lemma New_Done env :
  ∃ m, New env =
       Done {| timezone := ""; version := getVersion env; port := "";
               additionFolders := Some m; additionFiles := Some ∅;
               isTestMode := false |}.
Proof.
  unfold New. destruct (getAdditionalFolders_Done env) as [m ->]. by exists m.
Qed.

End configuration_facts.

(** * The order of the directives *)

Lemma Dir_example : Filepath.Dir "another-folder/some-files/file" = "another-folder/some-files".
Proof. vm_compute. reflexivity. Qed.

Lemma scenario_Done env :
  ∃ m, scenario env =
       Done {| timezone := "Europe/Moscow"; version := "1.14.9-alpine";
               port := "3000";
               additionFolders :=
                 Some (<["another-folder/some-files" := true]>
                         (<["my-folder/some-files" := true]> m));
               additionFiles :=
                 Some (<["another-folder/some-files/file" := true]> ∅);
               isTestMode := true |}.
Proof.
  unfold scenario. destruct (New_Done env) as [m ->]. exists m.
  rewrite <- Dir_example.
  reflexivity.
Qed.
(** C1, as amended: for the configuration of the example (version "1.14.9",
    port "3000", timezone "Europe/Moscow", test mode, the extra folder and
    the extra file), in every environment and for every order of the map
    iterations, the assembled text contains, in this order: the builder
    header tagged golang:1.14.9-alpine, the test directive, the build
    directive, ENV TZ=Europe/Moscow, the copy directive of the extra folder,
    the copy directive of the extra file, and EXPOSE 3000. *)
Theorem scenario_text_order (env env' : Env) (r : ranges) (d : Docen)
    (text : string) :
  scenario env = Done d →
  ranges_of d r →
  assembledText env' r d = Done text →
  ∃ packageName,
    getPackageName env' = Done packageName ∧
    in_order (scenario_order env' packageName) text.
Proof.
  destruct (scenario_Done env) as [m ->]. 
  intros [= <-] (_ & Hfo & Hfi).
  unfold additionFolders, additionFiles in Hfo, Hfi.
  unfold assembledText.
  destruct (getPackageName env') as [pkg|] eqn:Hpkg; [|done].
  intros [= <-]. exists pkg. split; [done|].
  apply in_order_concat. unfold scenario_order, directives.
  cbn [isTestMode version timezone port].
  assert ("my-folder/some-files" ∈ folders_range r) as Hfolder.
  { rewrite Hfo. eapply keys_lookup. rewrite lookup_insert_ne by done.
    apply lookup_insert_eq. }
  assert ("another-folder/some-files/file" ∈ files_range r) as Hfile.
  { rewrite Hfi. eapply keys_lookup. apply lookup_insert_eq. }
  rewrite !decide_True by done. unfold vendorTagOf.
  apply (sublist_app [_] _ [_;_;_;_;_;_]); [apply sublist_skip, sublist_nil_l|].
  do 2 apply sublist_inserts_l.
  apply (sublist_app [_] _ [_;_;_;_;_]); [reflexivity|].
  apply (sublist_app [_] _ [_;_;_;_]); [reflexivity|].
  apply sublist_inserts_l.
  apply (sublist_app [_] _ [_;_;_]); [reflexivity|].
  apply sublist_inserts_l.
  apply (sublist_app [_] _ [_;_]); [by apply sublist_map_elem|].
  apply (sublist_app [_] _ [_]); [by apply sublist_map_elem|].
  apply sublist_inserts_l, sublist_inserts_r. reflexivity.
Qed.

Lemma scenario_text_order_witness :
  ∃ packageName,
    getPackageName env1 = Done packageName ∧
    in_order (scenario_order env1 packageName)
      (returned "" (assembledText env1 (ranges_by_keys scenario1) scenario1)).
Proof.
  apply (scenario_text_order env1 env1 (ranges_by_keys scenario1) scenario1).
  - vm_compute. reflexivity.
  - repeat split; reflexivity.
  - vm_compute. reflexivity.
Defined.

(** The Dockerfile of the README, for the project docen. *)
Example scenario_text_readme :
  assembledText env1 (ranges_by_keys scenario1) scenario1 =
  Done (str_concat
    [ "FROM golang:1.14.9-alpine as builder" +:+ nl;
      "RUN apk update && apk add --no-cache git ca-certificates tzdata && update-ca-certificates" +:+ nl;
      "RUN adduser -D -g '' appuser" +:+ nl;
      "RUN mkdir -p /docen" +:+ nl;
      "RUN mkdir -p /docen/my-folder/some-files" +:+ nl;
      "RUN mkdir -p /docen/another-folder/some-files" +:+ nl;
      "COPY . /docen" +:+ nl;
      "WORKDIR /docen" +:+ nl;
      "RUN CGO_ENABLED=0 go test ./..." +:+ nl;
      "RUN CGO_ENABLED=0 GOOS=linux GOARCH=amd64 go build  -ldflags="
        +:+ dquote +:+ "-w -s" +:+ dquote +:+ " -o /docen" +:+ nl;
      "FROM scratch" +:+ nl;
      "COPY --from=builder /usr/share/zoneinfo /usr/share/zoneinfo" +:+ nl;
      "COPY --from=builder /etc/ssl/certs/ca-certificates.crt /etc/ssl/certs/" +:+ nl;
      "COPY --from=builder /etc/passwd /etc/passwd" +:+ nl;
      "ENV TZ=Europe/Moscow" +:+ nl;
      "COPY --from=builder /docen /docen" +:+ nl;
      "COPY --from=builder /docen/my-folder/some-files /docen/my-folder/some-files" +:+ nl;
      "COPY --from=builder /docen/another-folder/some-files /docen/another-folder/some-files" +:+ nl;
      "COPY --from=builder /docen/another-folder/some-files/file /docen/another-folder/some-files/file" +:+ nl;
      "USER appuser" +:+ nl;
      "EXPOSE 3000" +:+ nl;
      "ENTRYPOINT [" +:+ dquote +:+ "/docen" +:+ dquote +:+ "]" +:+ nl ]).
Proof. vm_compute. reflexivity. Qed.

(** C1 fails as stated: in the environment [env1] the project is named
    docen, and under no order of the map iterations does the text contain
    EXPOSE 3000 before ENV TZ=Europe/Moscow. *)
Lemma scenario_expose_not_before_timezone :
  scenario env1 = Done scenario1 ∧
  getPackageName env1 = Done "docen" ∧
  ∀ r text,
    ranges_of scenario1 r →
    assembledText env1 r scenario1 = Done text →
    ¬ in_order (scenario_order_expose_first env1 "docen") text.
Proof.
  split; [by vm_compute|]. split; [by vm_compute|].
  intros [o1 o2 o3] text (H1 & H2 & H3).
  vm_compute in H1, H2, H3.
  symmetry in H1, H2, H3.
  apply Permutation_length_2_inv in H1, H2. apply Permutation_length_1_inv in H3.
  intros [= <-].
  rewrite <- in_order_b_spec.
  destruct H1 as [-> | ->], H2 as [-> | ->]; subst o3; by vm_compute.
Qed.

(** * The runtime-version probe *)

Section version_facts.

Variable cls : ascii → bool.

Lemma find_go_outside c s :
  cls c = false →
  Regexp.find_go cls "" (String c s) = Regexp.find_go cls "" s.
Proof. intros H. simpl. by rewrite H. Qed.

(** A match under way is extended to the end of its run. *)
Lemma find_go_run r : ∀ cur t,
  str_all cls r = true → starts_outside cls t → cur +:+ r ≠ "" →
  Regexp.find_go cls cur (r +:+ t) = (cur +:+ r) :: Regexp.find_go cls "" t.
Proof.
  induction r as [|c r IH]; intros cur t Hr Ht Hne.
  - rewrite str_app_nil_r in *. rewrite str_app_nil_l.
    destruct t as [|c t]; simpl in *.
    + by destruct cur.
    + rewrite Ht. by destruct cur.
  - simpl in Hr. apply andb_true_iff in Hr as [Hc Hr].
    rewrite str_app_cons. simpl. rewrite Hc.
    rewrite IH; [|done|done|].
    + by rewrite str_app_assoc.
    + intros [H _]%str_app_eq_nil. by apply str_app_eq_nil in H as [_ ?].
Qed.

Lemma find_go_gap g s :
  str_all (outside cls) g = true →
  Regexp.find_go cls "" (g +:+ s) = Regexp.find_go cls "" s.
Proof.
  induction g as [|c g IH]; [done|]. intros H. simpl in H.
  apply andb_true_iff in H as [Hc Hg]. apply negb_true_iff in Hc.
  rewrite str_app_cons, find_go_outside by done. auto.
Qed.

(** The runs of the specification are the matches found. *)
Lemma maximal_runs_unique s rs :
  maximal_runs cls s rs → Regexp.FindAllString cls s = rs.
Proof.
  unfold Regexp.FindAllString. induction 1 as [g Hg|g r t rs Hg Hne Hr Ht _ IH].
  - rewrite <- (str_app_nil_r g). by rewrite find_go_gap.
  - rewrite find_go_gap by done.
    rewrite find_go_run by done. by rewrite IH.
Qed.

Lemma maximal_runs_outside c s rs :
  cls c = false → maximal_runs cls s rs → maximal_runs cls (String c s) rs.
Proof.
  intros Hc [g Hg|g r t rs' Hg Hne Hr Ht Hrs].
  - constructor. simpl. unfold outside at 1. by rewrite Hc.
  - rewrite <- str_app_cons. constructor; try done.
    simpl. unfold outside at 1. by rewrite Hc.
Qed.

(** The longest prefix of class characters. *)
Lemma run_split s :
  ∃ r t, s = r +:+ t ∧ str_all cls r = true ∧ starts_outside cls t ∧
         String.length t ≤ String.length s.
Proof.
  induction s as [|c s (r & t & -> & Hr & Ht & Hlen)].
  - by exists "", "".
  - destruct (cls c) eqn:Hc.
    + exists (String c r), t. rewrite str_app_cons. simpl.
      rewrite Hc, Hr. repeat split; auto.
    + exists "", (String c (r +:+ t)). done.
Qed.

Lemma find_all_runs_bounded n : ∀ s,
  String.length s ≤ n → maximal_runs cls s (Regexp.FindAllString cls s).
Proof.
  unfold Regexp.FindAllString.
  induction n as [|n IH]; intros s Hn.
  - destruct s; [|simpl in Hn; lia]. by constructor.
  - destruct s as [|c s]; [by constructor|]. simpl in Hn.
    destruct (cls c) eqn:Hc.
    + destruct (run_split s) as (r & t & -> & Hr & Ht & Hlen).
      simpl. rewrite Hc, str_app_nil_l.
      rewrite find_go_run by done.
      apply (runs_next cls "" (String c r) t); try done.
      * simpl. by rewrite Hc.
      * apply IH. lia.
    + rewrite find_go_outside by done.
      apply maximal_runs_outside; [done|]. apply IH. lia.
Qed.

Lemma find_all_runs s : maximal_runs cls s (Regexp.FindAllString cls s).
Proof. by apply (find_all_runs_bounded (String.length s)). Qed.

Lemma find_all_none s :
  Regexp.FindAllString cls s = [] ↔ str_all (outside cls) s = true.
Proof.
  split.
  - intros H. pose proof (find_all_runs s) as Hruns. rewrite H in Hruns.
    by inversion Hruns.
  - intros H. apply maximal_runs_unique. by constructor.
Qed.

End version_facts.

Lemma Join_no_sep l : GoStrings.Join l "" = str_concat l.
Proof.
  induction l as [|e [|e' l] IH]; [done|simpl; by rewrite str_app_nil_r|].
  change (GoStrings.Join (e :: e' :: l) "") with (e +:+ "" +:+ GoStrings.Join (e' :: l) "").
  by rewrite IH.
Qed.

Lemma getVersion_unfold env :
  getVersion env =
  match Regexp.FindAllString Regexp.version_char (runVer env) with
  | [] => defaultTagVersion
  | runs => str_concat runs +:+ "-" +:+ defaultTagVersion
  end.
Proof.
  unfold getVersion.
  destruct (Regexp.FindAllString _ _) as [|r rs] eqn:H; [done|].
  rewrite decide_False by done. by rewrite Join_no_sep.
Qed.

(** C3, as amended: the version probe extracts the contiguous runs of
    digit-or-period characters of the runtime version, which are determined
    by the string; if there are none it returns the bare flavor tag, and
    otherwise the runs joined in their order without a separator, then "-"
    and the flavor tag; the result is the bare flavor tag exactly when the
    string contains neither a digit nor a period. *)
Theorem getVersion_runs (env : Env) :
  ∃ runs,
    maximal_runs Regexp.version_char (runVer env) runs ∧
    (∀ runs', maximal_runs Regexp.version_char (runVer env) runs' → runs' = runs) ∧
    getVersion env =
      match runs with
      | [] => "alpine"
      | _ => str_concat runs +:+ "-alpine"
      end ∧
    (getVersion env = "alpine" ↔
     str_all (outside Regexp.version_char) (runVer env) = true).
Proof.
  exists (Regexp.FindAllString Regexp.version_char (runVer env)).
  split; [apply find_all_runs|]. split.
  { intros runs' H. symmetry. by apply maximal_runs_unique. }
  rewrite getVersion_unfold, <- find_all_none.
  destruct (Regexp.FindAllString _ _) as [|r rs]; [done|].
  split; [done|]. split; [|done].
  intros H. apply (f_equal String.length) in H.
  rewrite str_app_length in H. simpl in H. lia.
Qed.

(** The cases of the test suite. *)
Example getVersion_go1_13 :
  getVersion {| runVer := "go1.13"; readDir := readDir env1;
                openFile := openFile env1; writeFile := writeFile env1 |}
  = "1.13-alpine".
Proof. reflexivity. Qed.

Example getVersion_without_version :
  getVersion {| runVer := "without version"; readDir := readDir env1;
                openFile := openFile env1; writeFile := writeFile env1 |}
  = "alpine".
Proof. reflexivity. Qed.

(** C3 fails as stated: "devel.go" has no digit, and the probe returns
    ".-alpine", not the bare flavor tag. *)
Lemma getVersion_period_without_digit :
  str_all (outside Regexp.is_digit) (runVer env_devel) = true ∧
  getVersion env_devel = ".-alpine" ∧
  getVersion env_devel ≠ defaultTagVersion.
Proof. by vm_compute. Qed.

(** * The project-name resolver *)

Section resolver_facts.

Lemma str_all_app P a b : str_all P (a +:+ b) = str_all P a && str_all P b.
Proof.
  induction a as [|c a IH]; [done|]. rewrite str_app_cons. simpl.
  by rewrite IH, andb_assoc.
Qed.

(** *** [strings.ReplaceAll] *)

Lemma replace_go_cons old new c s :
  GoStrings.replace_go old new 0 (String c s) =
  if starts_with old (String c s)
  then new +:+ GoStrings.replace_go old new (String.length old - 1) s
  else String c (GoStrings.replace_go old new 0 s).
Proof. reflexivity. Qed.


(** One character for another. *)
Lemma ReplaceAll_period s :
  GoStrings.ReplaceAll s "." "_" = periods_to_underscores s.
Proof.
  unfold GoStrings.ReplaceAll, periods_to_underscores.
  induction s as [|c s IH]; [done|]. rewrite replace_go_cons. simpl.
  rewrite andb_true_r, Ascii.eqb_sym.
  destruct (Ascii.eqb c "."); by rewrite IH.
Qed.

Lemma ReplaceAll_no_quote s :
  str_all (outside is_quote) s = true →
  GoStrings.ReplaceAll s dquote "" = s.
Proof.
  unfold GoStrings.ReplaceAll.
  induction s as [|c s IH]; [done|]. intros H. simpl in H.
  apply andb_true_iff in H as [Hc Hs]. rewrite replace_go_cons. simpl.
  unfold outside, is_quote in Hc. apply negb_true_iff in Hc.
  rewrite andb_true_r, Ascii.eqb_sym, Hc. by rewrite IH.
Qed.


(** A character that is not in [p] does not complete an occurrence. *)
Lemma starts_with_snoc p c : ∀ s,
  p ≠ "" → str_all (λ x, negb (Ascii.eqb x c)) p = true →
  starts_with p (s +:+ String c "") = starts_with p s.
Proof.
  induction p as [|a p IH]; intros s Hne Hp; [done|]. simpl in Hp.
  apply andb_true_iff in Hp as [Ha Hp]. apply negb_true_iff in Ha.
  destruct s as [|b s].
  - rewrite str_app_nil_l. simpl. by rewrite Ha.
  - rewrite str_app_cons. simpl. destruct p as [|a' p]; [done|].
    by rewrite IH.
Qed.

Lemma contains_snoc p c s :
  p ≠ "" → str_all (λ x, negb (Ascii.eqb x c)) p = true →
  contains p (s +:+ String c "") = contains p s.
Proof.
  intros Hne Hp. induction s as [|b s IH].
  - rewrite str_app_nil_l. destruct p as [|a p]; [done|]. simpl in *.
    apply andb_true_iff in Hp as [Ha _]. apply negb_true_iff in Ha.
    by rewrite Ha.
  - rewrite (contains_unfold p (String b s)), <- IH, <- (starts_with_snoc p c) by done.
    by rewrite str_app_cons, (contains_unfold p (String b _)).
Qed.



(** *** [strings.Split] *)

Lemma split_go_sep_cons cur c s :
  GoStrings.split_go "/" 0 cur (String c s) =
  if is_separator c then cur :: GoStrings.split_go "/" 0 "" s
  else GoStrings.split_go "/" 0 (cur +:+ String c "") s.
Proof.
  simpl. unfold is_separator. rewrite andb_true_r, Ascii.eqb_sym.
  by destruct (Ascii.eqb c "/").
Qed.

(** The last piece is the last segment. *)
Lemma split_go_last s : ∀ cur,
  str_all (outside is_separator) cur = true →
  ∃ seg, last (GoStrings.split_go "/" 0 cur s) = Some seg ∧
         last_segment (cur +:+ s) seg.
Proof.
  induction s as [|c s IH]; intros cur Hcur.
  - exists cur. rewrite str_app_nil_r. split; [done|]. split; auto.
  - rewrite split_go_sep_cons. destruct (is_separator c) eqn:Hc.
    + destruct (IH "" eq_refl) as (seg & Hlast & Hseg & Hs).
      exists seg. split.
      { rewrite last_cons, Hlast. done. }
      split; [done|]. right. unfold is_separator in Hc.
      apply Ascii.eqb_eq in Hc as ->. rewrite str_app_nil_l in Hs.
      destruct Hs as [->|[pre ->]].
      * by exists cur.
      * exists (cur +:+ "/" +:+ pre). by rewrite !str_app_assoc.
    + destruct (IH (cur +:+ String c "")) as (seg & Hlast & Hseg & Hs).
      { rewrite str_all_app, Hcur. simpl. unfold outside. by rewrite Hc. }
      exists seg. split; [done|]. split; [done|].
      by rewrite str_app_assoc in Hs.
Qed.

Lemma Split_last X :
  ∃ seg, GoStrings.Split X "/" !! (length (GoStrings.Split X "/") - 1) = Some seg ∧
         last_segment X seg.
Proof.
  destruct (split_go_last X "" eq_refl) as (seg & Hlast & Hseg).
  exists seg. split; [|done]. by rewrite Nat.sub_1_r, <- last_lookup.
Qed.

(** *** The line *)




End resolver_facts.





(** The examples of the specification. *)
Example parsePackageName_quoted :
  parsePackageName ("module " +:+ dquote +:+ "testmodulename" +:+ dquote)
  = Done "testmodulename".
Proof. vm_compute. reflexivity. Qed.

Example parsePackageName_project_name :
  parsePackageName "module github.com/org/project.name" = Done "project_name".
Proof. vm_compute. reflexivity. Qed.


(** ** Where the resolver panics *)

Lemma ReadLine_blank rest : Bufio.ReadLine (nl +:+ rest) = Some "".
Proof. reflexivity. Qed.

(** An empty first line makes the resolver panic, whatever follows it. *)
Lemma parsePackageName_blank rest :
  parsePackageName (nl +:+ rest) = Panics IndexOutOfRange.
Proof. unfold parsePackageName. by rewrite ReadLine_blank. Qed.


(** C2, on the code: the manifest [blank_line_manifest] begins with an empty
    line; the resolver indexes the empty first line and panics instead of
    returning an identifier. *)
Theorem getPackageName_blank_first_line :
  openFile env_blank goModFile = Ok blank_line_manifest ∧
  Bufio.ReadLine blank_line_manifest = Some "" ∧
  parsePackageName blank_line_manifest = Panics IndexOutOfRange ∧
  getPackageName env_blank = Panics IndexOutOfRange.
Proof. repeat split; by vm_compute. Qed.

(** * The write *)

(** Once the project name is resolved, [GenerateDockerfile] returns what the
    write of the assembled text returns. *)
Lemma GenerateDockerfile_resolved env r d packageName :
  getPackageName env = Done packageName →
  GenerateDockerfile env r d =
  Done (writeFile env "Dockerfile" (dockerfileText env packageName r d) 420%N).
Proof.
  intros H. unfold GenerateDockerfile, assembledText. by rewrite H.
Qed.

(** C5, on the code: with the manifest [blank_line_manifest] the first step
    of [GenerateDockerfile], before any write, panics, for every
    configuration. *)
Theorem GenerateDockerfile_blank_first_line (r : ranges) (d : Docen) :
  GenerateDockerfile env_blank r d = Panics IndexOutOfRange.
Proof. reflexivity. Qed.

(** * The setters *)

Section setter_facts.

Lemma SetAdditionalFolder_Done path d folders :
  additionFolders d = Some folders →
  SetAdditionalFolder path d =
  Done {| timezone := timezone d; version := version d; port := port d;
          additionFolders := Some (<[path := true]> folders);
          additionFiles := additionFiles d; isTestMode := isTestMode d |}.
Proof. unfold SetAdditionalFolder. by intros ->. Qed.

Lemma SetAdditionalFile_Done path d folders files :
  additionFolders d = Some folders →
  additionFiles d = Some files →
  SetAdditionalFile path d =
  Done {| timezone := timezone d; version := version d; port := port d;
          additionFolders := Some (<[Filepath.Dir path := true]> folders);
          additionFiles := Some (<[path := true]> files);
          isTestMode := isTestMode d |}.
Proof. unfold SetAdditionalFile, SetAdditionalFolder. by intros -> ->. Qed.

(** A second call with the same path changes nothing. *)
Lemma SetAdditionalFile_twice path d d' :
  SetAdditionalFile path d = Done d' → SetAdditionalFile path d' = Done d'.
Proof.
  destruct d as [tz ver po [fo|] [fi|] tm]; try done.
  rewrite (SetAdditionalFile_Done path _ fo fi) by done. intros [= <-].
  rewrite (SetAdditionalFile_Done path _ (<[Filepath.Dir path := true]> fo)
             (<[path := true]> fi)) by done.
  simpl. by rewrite !insert_insert_eq.
Qed.

Lemma SetAdditionalFile_repeat path d d' n :
  SetAdditionalFile path d = Done d' →
  repeat_call (S n) (SetAdditionalFile path) d = Done d'.
Proof.
  revert d. induction n as [|n IH]; intros d H.
  - simpl. by rewrite H.
  - change (repeat_call (S (S n)) (SetAdditionalFile path) d)
      with (a' ← SetAdditionalFile path d;
            repeat_call (S n) (SetAdditionalFile path) a').
    rewrite H. apply IH. by apply (SetAdditionalFile_twice path d).
Qed.

Lemma member_keys k a : member k a → k ∈ keys a.
Proof. intros (m & -> & H). by apply (keys_lookup m k true). Qed.

End setter_facts.

(** C6: for every path [p] and every configuration made by [New], any
    number of calls of add-file with [p] in a row, at least one, returns the
    configuration that one call returns; in it [p] is a member of the file
    set, visited once by a range over the set, and the parent directory of
    [p] is a member of the folder set. *)
Theorem SetAdditionalFile_idempotent (env : Env) (p : string) (n : nat) :
  ∃ d0 d,
    New env = Done d0 ∧
    SetAdditionalFile p d0 = Done d ∧
    repeat_call (S n) (SetAdditionalFile p) d0 = Done d ∧
    member p (additionFiles d) ∧
    (p ∈ keys (additionFiles d) ∧ NoDup (keys (additionFiles d))) ∧
    member (Filepath.Dir p) (additionFolders d).
Proof.
  destruct (New_Done env) as [m HNew]. eexists. eexists.
  split; [exact HNew|].
  split; [by apply (SetAdditionalFile_Done p _ m ∅)|].
  split; [by apply SetAdditionalFile_repeat, (SetAdditionalFile_Done p _ m ∅)|].
  assert (member p (Some (<[p := true]> (∅ : gmap string bool)))) as Hp.
  { eexists. split; [done|]. apply lookup_insert_eq. }
  split; [exact Hp|]. split; [split; [by apply member_keys|apply keys_NoDup]|].
  eexists. split; [done|]. apply lookup_insert_eq.
Qed.

(** C9: on a configuration whose folder set and file set are nil maps, as
    in the zero value of [Docen], add-folder and add-file panic on the
    assignment to an entry of a nil map; on a configuration made by [New]
    both return. *)
Theorem setters_panic_on_nil_maps (env : Env) (d : Docen) (path : string) :
  additionFolders d = None →
  additionFiles d = None →
  SetAdditionalFolder path d = Panics NilMapAssignment ∧
  SetAdditionalFile path d = Panics NilMapAssignment ∧
  ∃ d0 d1 d2,
    New env = Done d0 ∧
    SetAdditionalFolder path d0 = Done d1 ∧
    SetAdditionalFile path d0 = Done d2.
Proof.
  intros Hfo Hfi. unfold SetAdditionalFile, SetAdditionalFolder.
  rewrite Hfo, Hfi. split; [done|]. split; [done|].
  destruct (New_Done env) as [m ->]. by do 3 eexists.
Qed.

Lemma setters_panic_on_nil_maps_witness :
  SetAdditionalFolder "static" zeroDocen = Panics NilMapAssignment ∧
  SetAdditionalFile "static" zeroDocen = Panics NilMapAssignment ∧
  ∃ d0 d1 d2,
    New env1 = Done d0 ∧
    SetAdditionalFolder "static" d0 = Done d1 ∧
    SetAdditionalFile "static" d0 = Done d2.
Proof.
  apply (setters_panic_on_nil_maps env1 zeroDocen "static"); reflexivity.
Defined.

(** * The directives *)

Lemma elem_of_map {A B} (f : A → B) (l : list A) (y : B) :
  y ∈ map f l ↔ ∃ x, y = f x ∧ x ∈ l.
Proof.
  rewrite list_elem_of_In, in_map_iff.
  split; intros (x & H1 & H2); exists x; by rewrite list_elem_of_In in *.
Qed.

(** Case analysis on which write put a directive in the list. *)
Ltac directive_cases H :=
  unfold directives in H;
  repeat first
    [ apply elem_of_app in H as [H|H]
    | apply elem_of_cons in H as [H|H]
    | apply elem_of_nil in H; destruct H
    | apply elem_of_map in H as (? & H & ?)
    | match type of H with
      | _ ∈ (if decide ?P then _ else _) => destruct (decide P)
      | _ ∈ (if ?b then _ else _) => destruct b eqn:?
      | _ ∈ (let _ := _ in _) => cbv zeta in H
      end ];
  subst.

Section directive_facts.

Context (env : Env) (packageName : string) (r : ranges) (d : Docen).

Lemma directive_mkdir v :
  v ∈ mkdir_range r →
  mkdirDirective packageName v ∈ directives env packageName r d.
Proof.
  intros H. unfold directives. rewrite !elem_of_app, elem_of_map.
  right. left. by exists v.
Qed.

Lemma directive_copy_folder v :
  v ∈ folders_range r →
  copyDirective packageName v ∈ directives env packageName r d.
Proof.
  intros H. unfold directives. rewrite !elem_of_app, !elem_of_map.
  do 8 right. left. by exists v.
Qed.

Lemma directive_build :
  buildDirective (vendorTagOf env) packageName
    ∈ directives env packageName r d.
Proof.
  unfold directives. rewrite !elem_of_app.
  do 4 right. left. apply list_elem_of_singleton. done.
Qed.

Lemma directive_build_only c :
  c ∈ directives env packageName r d →
  starts_with buildCommand c = true →
  c = buildDirective (vendorTagOf env) packageName.
Proof.
  intros H Hc. directive_cases H; first [by vm_compute in Hc | done].
Qed.

Lemma directive_expose_only c :
  c ∈ directives env packageName r d →
  starts_with "EXPOSE " c = true →
  port d ≠ "" ∧ c = "EXPOSE " +:+ port d +:+ nl.
Proof.
  intros H Hc. directive_cases H; first [by vm_compute in Hc | done].
Qed.

Lemma directive_timezone_only c :
  c ∈ directives env packageName r d →
  starts_with "ENV TZ=" c = true →
  timezone d ≠ "" ∧ c = "ENV TZ=" +:+ timezone d +:+ nl.
Proof.
  intros H Hc. directive_cases H; first [by vm_compute in Hc | done].
Qed.

Lemma directive_expose :
  port d ≠ "" →
  "EXPOSE " +:+ port d +:+ nl ∈ directives env packageName r d.
Proof.
  intros H. unfold directives. rewrite !elem_of_app, (decide_True _ _ H).
  do 11 right. left. apply list_elem_of_singleton. done.
Qed.

Lemma directive_timezone :
  timezone d ≠ "" →
  "ENV TZ=" +:+ timezone d +:+ nl ∈ directives env packageName r d.
Proof.
  intros H. unfold directives. rewrite !elem_of_app, (decide_True _ _ H).
  do 6 right. left. apply list_elem_of_singleton. done.
Qed.

End directive_facts.

(** * The vendor flag *)

Lemma isVendorMode_listed env : isVendorMode env = true ↔ vendor_listed env.
Proof.
  unfold isVendorMode, getProjectFiles, vendor_listed.
  destruct (readDir env "./") as [files|e].
  - rewrite existsb_exists. split.
    + intros (f & Hf & [Hdir Hname]%andb_true_iff).
      apply bool_decide_eq_true in Hname. exists files, f.
      by rewrite list_elem_of_In.
    + intros (files' & f & [= <-] & Hf & Hdir & Hname). exists f.
      rewrite <- list_elem_of_In. split; [done|].
      rewrite Hdir. simpl. by apply bool_decide_eq_true.
  - split; [done|]. by intros (? & ? & ? & _).
Qed.

(** The scenarios of the specification. *)
Example vendor_flag_present :
  buildDirective "-mod=vendor" "docen"
    ∈ directives env_vendor "docen" (ranges_by_keys config1) config1.
Proof. apply (directive_build env_vendor). Qed.

Example vendor_flag_absent :
  buildDirective "" "docen"
    ∈ directives env1 "docen" (ranges_by_keys config1) config1.
Proof. apply (directive_build env1). Qed.

(** * A file without a directory *)

Lemma last_sep_end_bare p :
  str_all (outside is_separator) p = true → Filepath.last_sep_end p = 0.
Proof.
  induction p as [|c p IH]; [done|]. simpl.
  intros [Hc Hp]%andb_true_iff. rewrite (IH Hp).
  unfold outside, is_separator in Hc. apply negb_true_iff in Hc. by rewrite Hc.
Qed.

Lemma Dir_bare p :
  str_all (outside is_separator) p = true → Filepath.Dir p = ".".
Proof. intros H. unfold Filepath.Dir. by rewrite last_sep_end_bare. Qed.

(** C10: add-file with a path without a separator puts the path in the file
    set and "." in the folder set; the text then assembled has the
    directory-creation directive and the copy directive of the folder ".",
    with the paths /<project>/. *)
Theorem SetAdditionalFile_bare_name (env : Env) (r : ranges) (d d' : Docen)
    (p text : string) :
  str_all (outside is_separator) p = true →
  SetAdditionalFile p d = Done d' →
  ranges_of d' r →
  assembledText env r d' = Done text →
  member p (additionFiles d') ∧
  member "." (additionFolders d') ∧
  ∃ packageName,
    getPackageName env = Done packageName ∧
    occurs ("RUN mkdir -p /" +:+ packageName +:+ "/." +:+ nl) text ∧
    occurs ("COPY --from=builder /" +:+ packageName +:+ "/. /"
              +:+ packageName +:+ "/." +:+ nl) text.
Proof.
  intros Hp Hset (Hmk & Hfo & _) Htext.
  destruct d as [tz ver po [fo|] [fi|] tm]; try done.
  rewrite (SetAdditionalFile_Done p _ fo fi), (Dir_bare p) in Hset by done.
  injection Hset as <-. cbn [additionFolders additionFiles] in *.
  assert (member "." (Some (<["." := true]> fo))) as Hdot.
  { eexists. split; [done|]. apply lookup_insert_eq. }
  split. { eexists. split; [done|]. apply lookup_insert_eq. }
  split; [done|].
  apply member_keys in Hdot.
  unfold assembledText in Htext.
  destruct (getPackageName env) as [pkg|]; [|done]. injection Htext as <-.
  exists pkg. split; [done|]. split; apply occurs_in_concat.
  - apply (directive_mkdir env pkg r _ "."). by rewrite Hmk.
  - apply (directive_copy_folder env pkg r _ "."). by rewrite Hfo.
Qed.

Lemma SetAdditionalFile_bare_name_witness :
  member "Makefile" (additionFiles config1_makefile) ∧
  member "." (additionFolders config1_makefile) ∧
  ∃ packageName,
    getPackageName env1 = Done packageName ∧
    occurs ("RUN mkdir -p /" +:+ packageName +:+ "/." +:+ nl) text1_makefile ∧
    occurs ("COPY --from=builder /" +:+ packageName +:+ "/. /"
              +:+ packageName +:+ "/." +:+ nl) text1_makefile.
Proof.
  apply (SetAdditionalFile_bare_name env1 (ranges_by_keys config1_makefile)
           config1 config1_makefile "Makefile" text1_makefile).
  - reflexivity.
  - vm_compute. reflexivity.
  - repeat split; reflexivity.
  - vm_compute. reflexivity.
Defined.

(** * Beyond the claims: construction with defaults *)

Lemma keys_elem (m : gmap string bool) k :
  k ∈ keys (Some m) ↔ is_Some (m !! k).
Proof.
  unfold keys. rewrite list_elem_of_fmap. split.
  - intros ([k' v] & -> & H%elem_of_map_to_list). by exists v.
  - intros [v H]. exists (k, v). split; [done|]. by apply elem_of_map_to_list.
Qed.

Lemma additionalFolders_lookup n :
  default false (additionalFolders !! n) = true ↔ allow_listed n.
Proof.
  unfold allow_listed.
  change additionalFolders with
    (<["static" := true]> (<["assets" := true]> (<["templates" := true]>
       (<["config" := true]> (∅ : gmap string bool))))).
  destruct (decide (n = "static")) as [->|H1].
  { rewrite lookup_insert_eq. simpl. by intuition. }
  rewrite lookup_insert_ne by done.
  destruct (decide (n = "assets")) as [->|H2].
  { rewrite lookup_insert_eq. simpl. by intuition. }
  rewrite lookup_insert_ne by done.
  destruct (decide (n = "templates")) as [->|H3].
  { rewrite lookup_insert_eq. simpl. by intuition. }
  rewrite lookup_insert_ne by done.
  destruct (decide (n = "config")) as [->|H4].
  { rewrite lookup_insert_eq. simpl. by intuition. }
  rewrite lookup_insert_ne, lookup_empty by done. simpl.
  split; [done|]. by intros [?|[?|[?|?]]].
Qed.

(** The loop of [getAdditionalFolders] adds the allow-listed directories of
    the listing, and nothing else. *)
Lemma addFolder_fold_keys files : ∀ m : gmap string bool,
  ∃ m', fold_left addFolder files (Done (Some m)) = Done (Some m') ∧
        ∀ n, is_Some (m' !! n) ↔
             is_Some (m !! n) ∨
             (allow_listed n ∧ ∃ f, f ∈ files ∧ IsDir f = true ∧ Name f = n).
Proof.
  induction files as [|f files IH]; intros m.
  - exists m. split; [done|]. intros n. split; [by left|].
    intros [H|(_ & f & Hf & _)]; [done|]. by apply elem_of_nil in Hf.
  - simpl.
    destruct (IsDir f && default false (additionalFolders !! Name f)) eqn:Hf.
    + apply andb_true_iff in Hf as [Hdir Hallow].
      apply additionalFolders_lookup in Hallow.
      destruct (IH (<[Name f := true]> m)) as (m' & Hfold & Hm').
      exists m'. split; [done|]. intros n. rewrite Hm'. split.
      * intros [H|(Ha & g & Hg & Hgd & Hgn)].
        -- destruct (decide (Name f = n)) as [<-|Hne].
           ++ right. split; [done|]. exists f. by rewrite elem_of_cons; auto.
           ++ rewrite lookup_insert_ne in H by done. by left.
        -- right. split; [done|]. exists g. rewrite elem_of_cons. auto.
      * intros [H|(Ha & g & Hg & Hgd & Hgn)].
        -- left. destruct (decide (Name f = n)) as [<-|Hne].
           ++ by rewrite lookup_insert_eq.
           ++ by rewrite lookup_insert_ne.
        -- apply elem_of_cons in Hg as [->|Hg].
           ++ left. rewrite <- Hgn. by rewrite lookup_insert_eq.
           ++ right. split; [done|]. by exists g.
    + destruct (IH m) as (m' & Hfold & Hm').
      exists m'. split; [done|]. intros n. rewrite Hm'. split.
      * intros [H|(Ha & g & Hg & Hgd & Hgn)]; [by left|].
        right. split; [done|]. exists g. rewrite elem_of_cons. auto.
      * intros [H|(Ha & g & Hg & Hgd & Hgn)]; [by left|].
        apply elem_of_cons in Hg as [->|Hg].
        -- apply additionalFolders_lookup in Ha. rewrite <- Hgn in Ha.
           by rewrite Hgd, Ha in Hf.
        -- right. split; [done|]. by exists g.
Qed.

Lemma getAdditionalFolders_keys env :
  ∃ m, getAdditionalFolders env = Done (Some m) ∧
       ∀ n, is_Some (m !! n) ↔ allow_listed n ∧ dir_listed env n.
Proof.
  unfold getAdditionalFolders, getProjectFiles, newAdditionalInfo, dir_listed.
  destruct (readDir env "./") as [files|e].
  - destruct (addFolder_fold_keys files ∅) as (m & Hfold & Hm).
    exists m. split; [exact Hfold|]. intros n. rewrite Hm. split.
    + intros [[? H]|[Ha (f & ? & ? & ?)]].
      * by rewrite lookup_empty in H.
      * split; [done|]. by exists files, f.
    + intros [Ha (files' & f & [= <-] & Hf)]. right. split; [done|]. by exists f.
  - exists ∅. split; [done|]. intros n. split.
    + intros [? H]. by rewrite lookup_empty in H.
    + by intros [_ (? & ? & ? & _)].
Qed.

(** X1: [New] returns, for every environment, a configuration with the
    version of the probe, no port, no timezone, test mode off and an empty
    file set; a range over its folder set visits exactly the names of the
    allow-list (static, assets, templates, config) that the listing of the
    working directory has as a directory, and none when the listing
    fails. *)
Theorem New_defaults (env : Env) :
  ∃ d,
    New env = Done d ∧
    version d = getVersion env ∧ port d = "" ∧ timezone d = "" ∧
    isTestMode d = false ∧
    additionFiles d = Some ∅ ∧
    (∀ n, n ∈ keys (additionFolders d) ↔ allow_listed n ∧ dir_listed env n).
Proof.
  unfold New. destruct (getAdditionalFolders_keys env) as (m & -> & Hm).
  eexists. split; [done|]. do 5 (split; [done|]).
  intros n. simpl additionFolders. rewrite keys_elem. apply Hm.
Qed.

(** * Beyond the claims: chains of setters *)

Lemma member_insert (m : gmap string bool) p k :
  member k (Some (<[p := true]> m)) ↔ k = p ∨ member k (Some m).
Proof.
  unfold member. split.
  - intros (m' & [= <-] & H). destruct (decide (p = k)) as [->|Hne]; [by left|].
    right. rewrite lookup_insert_ne in H by done. by exists m.
  - intros [->|(m' & [= <-] & H)]; eexists; (split; [done|]).
    + apply lookup_insert_eq.
    + destruct (decide (p = k)) as [->|Hne];
        [apply lookup_insert_eq|by rewrite lookup_insert_ne].
Qed.

Lemma do_call_made c d :
  maps_made d → ∃ d', do_call c d = Done d' ∧ maps_made d'.
Proof.
  destruct d as [tz ver po fo fi tm]. unfold maps_made. simpl.
  intros [[m ->] [m' ->]].
  destruct c; eexists; (split; [reflexivity|]); split; by eexists.
Qed.

Lemma do_calls_made cs : ∀ d,
  maps_made d → ∃ d', do_calls cs d = Done d' ∧ maps_made d'.
Proof.
  induction cs as [|c cs IH]; intros d Hd; [by exists d|].
  destruct (do_call_made c d Hd) as (d1 & H1 & Hd1).
  destruct (IH d1 Hd1) as (d' & H' & Hd').
  exists d'. split; [|done]. simpl. by rewrite H1.
Qed.

(** X2: on a configuration made by [New], every chain of setter calls
    returns a configuration, on which [GenerateDockerfile] can be called;
    no setter fails, whatever its argument. *)
Theorem setters_return_after_New (env : Env) (cs : list call) :
  ∃ d0 d, New env = Done d0 ∧ do_calls cs d0 = Done d ∧ maps_made d.
Proof.
  destruct (New_Done env) as [m HNew].
  eexists. destruct (do_calls_made cs _ (conj (mk_is_Some _ _ eq_refl)
    (mk_is_Some _ _ eq_refl) : maps_made
      {| timezone := ""; version := getVersion env; port := "";
         additionFolders := Some m; additionFiles := Some ∅;
         isTestMode := false |})) as (d & Hd & Hmade).
  exists d. by rewrite HNew.
Qed.

Lemma do_call_members c d d1 :
  do_call c d = Done d1 →
  (∀ k, member k (additionFolders d1) ↔
        member k (additionFolders d) ∨ c = CallSetAdditionalFolder k ∨
        ∃ p, c = CallSetAdditionalFile p ∧ k = Filepath.Dir p) ∧
  (∀ k, member k (additionFiles d1) ↔
        member k (additionFiles d) ∨ c = CallSetAdditionalFile k).
Proof.
  destruct d as [tz ver po fo fi tm].
  destruct c as [v|p|z|path|path|mode]; simpl.
  1-3, 6: intros [= <-]; simpl; split; intros k; split; auto;
    by intros [?|[?|(? & ? & _)]] || by intros [?|?].
  - destruct fo as [m|]; [|done]. intros [= <-]. simpl. split; intros k.
    + rewrite member_insert. split.
      * intros [->|?]; auto.
      * intros [?|[[= ->]|(? & ? & _)]]; auto. done.
    + split; [auto|]. by intros [?|?].
  - unfold SetAdditionalFile, SetAdditionalFolder. simpl.
    destruct fi as [mi|]; [|done]. destruct fo as [m|]; [|done].
    intros [= <-]. simpl. split; intros k; rewrite member_insert.
    + split.
      * intros [->|?]; [|by auto]. right. right. by exists path.
      * intros [?|[?|(p & [= ->] & ->)]]; auto. done.
    + split.
      * intros [->|?]; auto.
      * intros [?|[= ->]]; auto.
Qed.

(** X3: the folder set and the file set after a chain of setter calls
    that returned are the sets before it and what the chain added, and
    nothing else: the folders are those of before, the arguments of
    add-folder and the parent directories of the arguments of add-file; the
    files are those of before and the arguments of add-file.  No setter
    removes an entry. *)
Theorem setters_only_add (cs : list call) (d d' : Docen) :
  do_calls cs d = Done d' →
  (∀ k, member k (additionFolders d') ↔
        member k (additionFolders d) ∨ CallSetAdditionalFolder k ∈ cs ∨
        ∃ p, CallSetAdditionalFile p ∈ cs ∧ k = Filepath.Dir p) ∧
  (∀ k, member k (additionFiles d') ↔
        member k (additionFiles d) ∨ CallSetAdditionalFile k ∈ cs).
Proof.
  revert d. induction cs as [|c cs IH]; intros d H.
  - injection H as <-. split; intros k; split; auto.
    + intros [?|[H|(? & H & _)]]; [done|by apply elem_of_nil in H..].
    + intros [?|H]; [done|by apply elem_of_nil in H].
  - simpl in H. destruct (do_call c d) as [d1|] eqn:H1; [|done]. simpl in H.
    destruct (IH _ H) as [IHfo IHfi].
    destruct (do_call_members _ _ _ H1) as [Hfo Hfi].
    split; intros k.
    + rewrite IHfo, Hfo. setoid_rewrite elem_of_cons. split.
      * intros [[? | [-> | (p & -> & ->)]] | [? | (p & ? & ->)]]; eauto 7.
      * intros [? | [[<- | ?] | (p & [<- | ?] & ->)]]; eauto 7.
    + rewrite IHfi, Hfi. setoid_rewrite elem_of_cons. split.
      * intros [[? | ->] | ?]; auto.
      * intros [? | [<- | ?]]; auto.
Qed.

Lemma setters_only_add_witness :
  (∀ k, member k (additionFolders config1_makefile) ↔
        member k (additionFolders config1) ∨
        CallSetAdditionalFolder k ∈ [CallSetAdditionalFile "Makefile"] ∨
        ∃ p, CallSetAdditionalFile p ∈ [CallSetAdditionalFile "Makefile"] ∧
             k = Filepath.Dir p) ∧
  (∀ k, member k (additionFiles config1_makefile) ↔
        member k (additionFiles config1) ∨
        CallSetAdditionalFile k ∈ [CallSetAdditionalFile "Makefile"]).
Proof.
  apply (setters_only_add [CallSetAdditionalFile "Makefile"] config1
           config1_makefile).
  vm_compute. reflexivity.
Defined.

Lemma insert_true_comm (m : gmap string bool) a b :
  <[a := true]> (<[b := true]> m) = <[b := true]> (<[a := true]> m).
Proof.
  destruct (decide (a = b)) as [->|H]; [done|]. by apply insert_insert_ne.
Qed.

Lemma do_call_add_swap c1 c2 d :
  is_add c1 → is_add c2 →
  do_calls [c1; c2] d = do_calls [c2; c1] d.
Proof.
  destruct d as [tz ver po [fo|] [fi|] tm];
    destruct c1 as [| | |a|a|]; try done;
    destruct c2 as [| | |b|b|]; try done; intros _ _;
    unfold do_calls, do_call, SetAdditionalFile, SetAdditionalFolder; simpl;
    try done; do 2 f_equal; f_equal; apply insert_true_comm.
Qed.

(** X4: the calls of add-folder and add-file commute: two chains of such
    calls that differ only in the order of the calls return the same
    configuration, or both panic, on every configuration. *)
Theorem adds_commute (cs1 cs2 : list call) (d : Docen) :
  cs1 ≡ₚ cs2 →
  Forall is_add cs1 →
  do_calls cs1 d = do_calls cs2 d.
Proof.
  intros Hp. revert d.
  induction Hp as [|c l1 l2 Hp IH|c1 c2 l|l1 l2 l3 Hp1 IH1 Hp2 IH2];
    intros d Hadd.
  - done.
  - apply Forall_cons in Hadd as [_ Hadd]. simpl.
    destruct (do_call c d); simpl; [by apply IH|done].
  - apply Forall_cons in Hadd as [H2 Hadd].
    apply Forall_cons in Hadd as [H1 _].
    pose proof (do_call_add_swap c1 c2 d H1 H2) as Hsw. simpl in *.
    destruct (do_call c1 d) as [d1|] eqn:E1, (do_call c2 d) as [d2|] eqn:E2;
      simpl in *.
    + destruct (do_call c2 d1) as [d12|], (do_call c1 d2) as [d21|];
        simpl in *; by simplify_eq.
    + destruct (do_call c2 d1) as [d12|]; simpl in *; by simplify_eq.
    + destruct (do_call c1 d2) as [d21|]; simpl in *; by simplify_eq.
    + done.
  - rewrite IH1 by done. apply IH2. by rewrite <- Hp1.
Qed.

Lemma adds_commute_witness :
  do_calls [CallSetAdditionalFile "docs/api.md"; CallSetAdditionalFolder "web"]
    config1 =
  do_calls [CallSetAdditionalFolder "web"; CallSetAdditionalFile "docs/api.md"]
    config1.
Proof.
  apply adds_commute.
  - apply Permutation_swap.
  - repeat constructor.
Defined.

(** X5: every setter is idempotent: a call that returned, made again with
    the same argument on the configuration it returned, returns that
    configuration unchanged. *)
Theorem setter_idempotent (c : call) (d d' : Docen) :
  do_call c d = Done d' → do_call c d' = Done d'.
Proof.
  destruct d as [tz ver po fo fi tm].
  destruct c as [v|p|z|path|path|mode]; simpl.
  1-3, 6: by intros [= <-].
  - destruct fo as [m|]; [|done]. intros [= <-].
    unfold SetAdditionalFolder. simpl. by rewrite insert_insert_eq.
  - apply SetAdditionalFile_twice.
Qed.

Lemma setter_idempotent_witness :
  do_call (CallSetAdditionalFile "Makefile") config1_makefile
  = Done config1_makefile.
Proof.
  apply (setter_idempotent (CallSetAdditionalFile "Makefile") config1).
  vm_compute. reflexivity.
Defined.

(** * Beyond the claims: the project name *)

Lemma periods_to_underscores_safe seg :
  str_all (outside is_separator) seg = true →
  str_all (outside is_separator) (periods_to_underscores seg) = true ∧
  str_all (outside is_period) (periods_to_underscores seg) = true.
Proof.
  unfold periods_to_underscores.
  induction seg as [|c seg IH]; [done|]. simpl.
  intros [Hc Hs]%andb_true_iff. destruct (IH Hs) as [-> ->].
  rewrite !andb_true_r. unfold outside, is_period, is_separator in *.
  destruct (Ascii.eqb c ".") eqn:E; [done|]. by rewrite Hc, E.
Qed.

Lemma parseLine_Done data name :
  parseLine data = Done name →
  ∃ seg, str_all (outside is_separator) seg = true ∧
         name = periods_to_underscores seg.
Proof.
  unfold parseLine.
  destruct (GoStrings.ReplaceAll data "module " "") as [|c m]; [done|].
  match goal with
  | |- context [GoStrings.Split ?x "/"] =>
      destruct (Split_last x) as (seg & -> & Hseg & _)
  end.
  intros [= <-]. exists seg. by rewrite ReplaceAll_period.
Qed.

(** X6: whatever the manifest holds, a project name the resolver returns
    has no "/" and no period in it. *)
Theorem getPackageName_safe (env : Env) (name : string) :
  getPackageName env = Done name →
  str_all (outside is_separator) name = true ∧
  str_all (outside is_period) name = true.
Proof.
  unfold getPackageName, parsePackageName.
  destruct (openFile env goModFile) as [content|e]; [|by intros [= <-]].
  destruct (Bufio.ReadLine content) as [data|]; [|by intros [= <-]].
  intros (seg & Hseg & ->)%parseLine_Done.
  by apply periods_to_underscores_safe.
Qed.

Lemma getPackageName_safe_witness :
  str_all (outside is_separator) "docen" = true ∧
  str_all (outside is_period) "docen" = true.
Proof.
  apply (getPackageName_safe env1 "docen"). vm_compute. reflexivity.
Defined.



Lemma before_byte_line line rest : ∀ n,
  str_all (outside is_newline) line = true →
  String.length line < n →
  before_byte "010" (str_take n (line +:+ nl +:+ rest)) = Some line.
Proof.
  induction line as [|c line IH]; intros n Hl Hn.
  - destruct n; [simpl in Hn; lia|]. reflexivity.
  - destruct n; [simpl in Hn; lia|]. simpl in Hl, Hn.
    apply andb_true_iff in Hl as [Hc Hl].
    unfold outside, is_newline in Hc. apply negb_true_iff in Hc.
    rewrite str_app_cons. simpl. rewrite Hc, IH by (done || lia). done.
Qed.

Lemma before_byte_none s : ∀ n,
  str_all (outside is_newline) s = true →
  before_byte "010" (str_take n s) = None.
Proof.
  induction s as [|c s IH]; intros n Hs; [by destruct n|].
  destruct n; [done|]. simpl in Hs. apply andb_true_iff in Hs as [Hc Hs].
  unfold outside, is_newline in Hc. apply negb_true_iff in Hc.
  simpl. by rewrite Hc, IH.
Qed.

(** X8: only the first line of the manifest counts.  When it is shorter
    than the buffer of the reader and ends with a line feed, the resolver
    returns what [parseLine] returns for it without one carriage return at
    its end, whatever follows; a manifest of one such line that is not
    empty and has no line feed is parsed whole, a carriage return at its
    end included. *)
Theorem parsePackageName_first_line (line rest : string) :
  str_all (outside is_newline) line = true →
  String.length line < Bufio.defaultBufSize →
  parsePackageName (line +:+ nl +:+ rest) = parseLine (Bufio.drop_cr line) ∧
  (line ≠ "" → parsePackageName line = parseLine line).
Proof.
  intros Hl Hn. unfold parsePackageName, Bufio.ReadLine. split.
  - by rewrite before_byte_line.
  - intros Hne. rewrite before_byte_none by done.
    rewrite decide_False by lia. by destruct line.
Qed.

Lemma parsePackageName_first_line_witness :
  parsePackageName
    (("module github.com/lobz1g/docen" +:+ String cr "") +:+ nl +:+ "go 1.22")
  = parseLine (Bufio.drop_cr ("module github.com/lobz1g/docen" +:+ String cr "")) ∧
  ("module github.com/lobz1g/docen" +:+ String cr "" ≠ "" →
   parsePackageName ("module github.com/lobz1g/docen" +:+ String cr "")
   = parseLine ("module github.com/lobz1g/docen" +:+ String cr "")).
Proof.
  apply (parsePackageName_first_line
           ("module github.com/lobz1g/docen" +:+ String cr "") "go 1.22").
  - reflexivity.
  - vm_compute. lia.
Defined.

(** X9: when the manifest cannot be opened, or is empty, the project is
    named app: [GenerateDockerfile] returns what the write of the text
    assembled for app returns, and that text ends with the entry point
    /app. *)
Theorem GenerateDockerfile_fallback (env : Env) (r : ranges) (d : Docen) :
  (∃ e, openFile env goModFile = Err e) ∨ openFile env goModFile = Ok "" →
  getPackageName env = Done "app" ∧
  GenerateDockerfile env r d =
    Done (writeFile env "Dockerfile" (dockerfileText env "app" r d) 420%N) ∧
  ∃ body,
    dockerfileText env "app" r d =
    body +:+ "ENTRYPOINT [" +:+ dquote +:+ "/app" +:+ dquote +:+ "]" +:+ nl.
Proof.
  intros H.
  assert (getPackageName env = Done "app") as Hname.
  { unfold getPackageName. by destruct H as [[e ->]| ->]. }
  split; [done|]. split; [by apply GenerateDockerfile_resolved|].
  unfold dockerfileText, directives. rewrite !app_assoc.
  rewrite str_concat_app. simpl. rewrite str_app_nil_r. by eexists.
Qed.

Lemma GenerateDockerfile_fallback_witness :
  getPackageName env_no_manifest = Done "app" ∧
  GenerateDockerfile env_no_manifest (ranges_by_keys config1) config1 =
    Done (writeFile env_no_manifest "Dockerfile"
            (dockerfileText env_no_manifest "app" (ranges_by_keys config1)
               config1) 420%N) ∧
  ∃ body,
    dockerfileText env_no_manifest "app" (ranges_by_keys config1) config1 =
    body +:+ "ENTRYPOINT [" +:+ dquote +:+ "/app" +:+ dquote +:+ "]" +:+ nl.
Proof.
  apply (GenerateDockerfile_fallback env_no_manifest).
  left. eexists. reflexivity.
Defined.

(** * Beyond the claims: the version *)

Lemma find_go_concat cls s : ∀ cur,
  str_concat (Regexp.find_go cls cur s) = cur +:+ str_filter cls s.
Proof.
  induction s as [|c s IH]; intros cur; simpl.
  - destruct cur; simpl; by rewrite ?str_app_nil_r.
  - destruct (cls c).
    + by rewrite IH, str_app_assoc.
    + rewrite str_concat_app, IH.
      destruct cur; simpl; by rewrite ?str_app_nil_r.
Qed.

(** X10: the version of the probe is the runtime version with every
    character other than a digit or a period deleted, followed by
    "-alpine"; and "alpine" alone when nothing is left.  The digits of a
    release-candidate or build suffix are kept with the others. *)
Theorem getVersion_filter (env : Env) :
  getVersion env =
  match str_filter Regexp.version_char (runVer env) with
  | "" => "alpine"
  | v => v +:+ "-alpine"
  end.
Proof.
  rewrite getVersion_unfold.
  pose proof (find_go_concat Regexp.version_char (runVer env) "") as Hc.
  rewrite str_app_nil_l in Hc. fold (Regexp.FindAllString Regexp.version_char
    (runVer env)) in Hc.
  pose proof (find_all_runs Regexp.version_char (runVer env)) as Hruns.
  destruct (Regexp.FindAllString _ _) as [|r rs].
  - simpl in Hc. by rewrite <- Hc.
  - rewrite <- Hc. inversion Hruns as [|g r' t rs' _ Hne _ _ _]; subst.
    simpl. destruct r; [done|]. reflexivity.
Qed.

Example getVersion_release_candidate :
  getVersion env_no_manifest = "1.212-alpine".
Proof. reflexivity. Qed.

(** * Beyond the claims: the text *)

Lemma directive_test_only env packageName r d c :
  c ∈ directives env packageName r d →
  starts_with "RUN CGO_ENABLED=0 go test" c = true →
  isTestMode d = true ∧ c = testDirective.
Proof.
  intros H Hc. directive_cases H; first [by vm_compute in Hc | done].
Qed.

(** X11: the test directive is written exactly when the test mode is on,
    and then the text has it after the working-directory directive and
    before the build directive. *)
Theorem test_directive (env : Env) (packageName : string) (r : ranges)
    (d : Docen) :
  ((∃ c, c ∈ directives env packageName r d ∧
         starts_with "RUN CGO_ENABLED=0 go test" c = true)
     ↔ isTestMode d = true) ∧
  (isTestMode d = true →
   in_order [ "WORKDIR /" +:+ packageName +:+ nl;
              "RUN CGO_ENABLED=0 go test ./..." +:+ nl;
              buildDirective (vendorTagOf env) packageName ]
     (dockerfileText env packageName r d)).
Proof.
  split.
  - split.
    + intros (c & Hc & Hs). by destruct (directive_test_only _ _ _ _ _ Hc Hs).
    + intros H. exists testDirective. split; [|done].
      unfold directives. rewrite H, !elem_of_app. do 3 right. left.
      by apply list_elem_of_singleton.
  - intros H. apply in_order_concat. unfold directives. rewrite H.
    do 2 apply sublist_inserts_l. apply sublist_cons, sublist_skip.
    apply (sublist_app [_] _ [_]); [reflexivity|].
    apply sublist_inserts_r. reflexivity.
Qed.

Lemma sublist_singleton_head {A} (x : A) l : [x] `sublist_of` x :: l.
Proof. apply sublist_skip, sublist_nil_l. Qed.

Lemma folder_stages env packageName r d v :
  v ∈ mkdir_range r → v ∈ folders_range r →
  [ mkdirDirective packageName v; runtimeStage; copyDirective packageName v ]
    `sublist_of` directives env packageName r d.
Proof.
  intros Hmk Hfo. unfold directives. apply sublist_inserts_l.
  apply (sublist_app [_] _ [_; _]); [by apply sublist_map_elem|].
  do 3 apply sublist_inserts_l.
  apply (sublist_app [_] _ [_]); [apply sublist_singleton_head|].
  do 2 apply sublist_inserts_l. apply sublist_inserts_r.
  by apply sublist_map_elem.
Qed.

Lemma file_stage env packageName r d f :
  f ∈ files_range r →
  [ runtimeStage; copyDirective packageName f ]
    `sublist_of` directives env packageName r d.
Proof.
  intros Hfi. unfold directives. do 5 apply sublist_inserts_l.
  apply (sublist_app [_] _ [_]); [apply sublist_singleton_head|].
  do 3 apply sublist_inserts_l. apply sublist_inserts_r.
  by apply sublist_map_elem.
Qed.

Lemma folder_file_stages env packageName r d v f :
  v ∈ mkdir_range r → v ∈ folders_range r → f ∈ files_range r →
  [ mkdirDirective packageName v; runtimeStage;
    copyDirective packageName v; copyDirective packageName f ]
    `sublist_of` directives env packageName r d.
Proof.
  intros Hmk Hfo Hfi. unfold directives. apply sublist_inserts_l.
  apply (sublist_app [_] _ [_; _; _]); [by apply sublist_map_elem|].
  do 3 apply sublist_inserts_l.
  apply (sublist_app [_] _ [_; _]); [apply sublist_singleton_head|].
  do 2 apply sublist_inserts_l.
  apply (sublist_app [_] _ [_]); [by apply sublist_map_elem|].
  apply sublist_inserts_r. by apply sublist_map_elem.
Qed.

(** X12: whatever the order of the map iterations, the text has, for every
    folder of the folder set, the directive that creates it in the builder
    stage, then the header of the runtime stage, then the directive that
    copies it; and for every file of the file set the directive that copies
    it, after the header of the runtime stage. *)
Theorem folders_and_files_in_text (env : Env) (packageName : string)
    (r : ranges) (d : Docen) :
  ranges_of d r →
  (∀ v, v ∈ keys (additionFolders d) →
        in_order [ mkdirDirective packageName v; runtimeStage;
                   copyDirective packageName v ]
          (dockerfileText env packageName r d)) ∧
  (∀ f, f ∈ keys (additionFiles d) →
        in_order [ runtimeStage; copyDirective packageName f ]
          (dockerfileText env packageName r d)).
Proof.
  intros (Hmk & Hfo & Hfi). split.
  - intros v Hv. apply in_order_concat, folder_stages.
    + by rewrite Hmk.
    + by rewrite Hfo.
  - intros f Hf. apply in_order_concat, file_stage. by rewrite Hfi.
Qed.

Lemma folders_and_files_in_text_witness :
  (∀ v, v ∈ keys (additionFolders scenario1) →
        in_order [ mkdirDirective "docen" v; runtimeStage;
                   copyDirective "docen" v ]
          (dockerfileText env1 "docen" (ranges_reversed scenario1) scenario1)) ∧
  (∀ f, f ∈ keys (additionFiles scenario1) →
        in_order [ runtimeStage; copyDirective "docen" f ]
          (dockerfileText env1 "docen" (ranges_reversed scenario1) scenario1)).
Proof.
  apply (folders_and_files_in_text env1 "docen" (ranges_reversed scenario1)
           scenario1).
  unfold ranges_of, ranges_reversed.
  cbn [mkdir_range folders_range files_range].
  split; [|split]; symmetry; apply Permutation_rev.
Defined.

(** X13: after add-file with the path [p] returned, whatever the order of
    the map iterations, the text creates the parent directory of [p] in the
    builder stage and, in the runtime stage, copies that directory and then
    the file. *)
Theorem added_file_in_text (env : Env) (packageName p : string) (r : ranges)
    (d d' : Docen) :
  SetAdditionalFile p d = Done d' →
  ranges_of d' r →
  in_order [ mkdirDirective packageName (Filepath.Dir p); runtimeStage;
             copyDirective packageName (Filepath.Dir p);
             copyDirective packageName p ]
    (dockerfileText env packageName r d').
Proof.
  destruct d as [tz ver po [fo|] [fi|] tm]; try done.
  rewrite (SetAdditionalFile_Done p _ fo fi) by done.
  intros [= <-] (Hmk & Hfo & Hfi). simpl in Hmk, Hfo, Hfi.
  assert (Filepath.Dir p ∈ keys (Some (<[Filepath.Dir p := true]> fo))) as HD.
  { eapply keys_lookup, lookup_insert_eq. }
  assert (p ∈ keys (Some (<[p := true]> fi))) as Hp.
  { eapply keys_lookup, lookup_insert_eq. }
  apply in_order_concat, folder_file_stages.
  - by rewrite Hmk.
  - by rewrite Hfo.
  - by rewrite Hfi.
Qed.

Lemma added_file_in_text_witness :
  in_order [ mkdirDirective "docen" (Filepath.Dir "web/index.html");
             runtimeStage;
             copyDirective "docen" (Filepath.Dir "web/index.html");
             copyDirective "docen" "web/index.html" ]
    (dockerfileText env1 "docen"
       (ranges_by_keys
          (returned zeroDocen (SetAdditionalFile "web/index.html" config1)))
       (returned zeroDocen (SetAdditionalFile "web/index.html" config1))).
Proof.
  apply (added_file_in_text env1 "docen" "web/index.html" _ config1).
  - vm_compute. reflexivity.
  - repeat split; reflexivity.
Defined.

(** X14: every text, for every configuration, environment and order of
    the map iterations, begins with the header of the builder stage for the
    version of the configuration, ends with the entry point of the project,
    and has the fourteen fixed directives of the two stages in their
    order. *)
Theorem text_skeleton (env : Env) (packageName : string) (r : ranges)
    (d : Docen) :
  starts_with ("FROM golang:" +:+ version d +:+ " as builder" +:+ nl)
    (dockerfileText env packageName r d) = true ∧
  (∃ body,
     dockerfileText env packageName r d =
     body +:+ "ENTRYPOINT [" +:+ dquote +:+ "/" +:+ packageName +:+ dquote
          +:+ "]" +:+ nl) ∧
  in_order (skeleton env packageName d) (dockerfileText env packageName r d).
Proof.
  split; [|split].
  - unfold dockerfileText, directives. simpl str_concat. apply starts_with_app.
  - unfold dockerfileText, directives. rewrite !app_assoc.
    rewrite str_concat_app. simpl. rewrite str_app_nil_r. by eexists.
  - apply in_order_concat. unfold skeleton, directives, vendorTagOf, runtimeStage.
    apply (sublist_app [_; _; _; _] _ [_; _; _; _; _; _; _; _; _; _]);
      [reflexivity|].
    apply sublist_inserts_l.
    apply (sublist_app [_; _] _ [_; _; _; _; _; _; _; _]); [reflexivity|].
    apply sublist_inserts_l.
    apply (sublist_app [_] _ [_; _; _; _; _; _; _]); [reflexivity|].
    apply (sublist_app [_; _; _; _] _ [_; _; _]); [reflexivity|].
    apply sublist_inserts_l.
    apply (sublist_app [_] _ [_; _]); [reflexivity|].
    do 2 apply sublist_inserts_l.
    apply (sublist_app [_] _ [_]); [reflexivity|].
    apply sublist_inserts_l. reflexivity.
Qed.

Lemma str_concat_length_perm l1 l2 :
  l1 ≡ₚ l2 → String.length (str_concat l1) = String.length (str_concat l2).
Proof.
  induction 1 as [|x l1 l2 _ IH|x y l|l1 l2 l3 _ IH1 _ IH2]; simpl.
  - done.
  - by rewrite !str_app_length, IH.
  - rewrite !str_app_length. lia.
  - by rewrite IH1.
Qed.

(** X15: the order of the map iterations only moves directives: two texts
    assembled for the same configuration, project name and environment have
    the same directives, each as many times, and the same length. *)
Theorem text_up_to_order (env : Env) (packageName : string) (r1 r2 : ranges)
    (d : Docen) :
  ranges_of d r1 → ranges_of d r2 →
  directives env packageName r1 d ≡ₚ directives env packageName r2 d ∧
  String.length (dockerfileText env packageName r1 d) =
  String.length (dockerfileText env packageName r2 d).
Proof.
  intros (Hmk1 & Hfo1 & Hfi1) (Hmk2 & Hfo2 & Hfi2).
  assert (directives env packageName r1 d ≡ₚ directives env packageName r2 d)
    as Hperm.
  { unfold directives.
    apply Permutation_app; [done|].
    apply Permutation_app; [apply Permutation_map; by rewrite Hmk1, Hmk2|].
    do 6 (apply Permutation_app; [done|]).
    apply Permutation_app; [apply Permutation_map; by rewrite Hfo1, Hfo2|].
    apply Permutation_app; [apply Permutation_map; by rewrite Hfi1, Hfi2|].
    done. }
  split; [done|]. by apply str_concat_length_perm.
Qed.

Lemma text_up_to_order_witness :
  directives env1 "docen" (ranges_by_keys scenario1) scenario1
    ≡ₚ directives env1 "docen" (ranges_reversed scenario1) scenario1 ∧
  String.length (dockerfileText env1 "docen" (ranges_by_keys scenario1) scenario1) =
  String.length (dockerfileText env1 "docen" (ranges_reversed scenario1) scenario1).
Proof.
  apply (text_up_to_order env1 "docen" (ranges_by_keys scenario1)
           (ranges_reversed scenario1) scenario1).
  - repeat split; reflexivity.
  - unfold ranges_of, ranges_reversed.
    cbn [mkdir_range folders_range files_range].
    split; [|split]; symmetry; apply Permutation_rev.
Defined.

(** X16: where the optional directives stand: when the port is not empty
    the text has the expose directive after the user directive and before
    the entry point; when the timezone is not empty it has the timezone
    directive after the copy of /etc/passwd and before the copy of the
    built program. *)
Theorem optional_directives_position (env : Env) (packageName : string)
    (r : ranges) (d : Docen) :
  (port d ≠ "" →
   in_order [ "USER appuser" +:+ nl;
              "EXPOSE " +:+ port d +:+ nl;
              "ENTRYPOINT [" +:+ dquote +:+ "/" +:+ packageName +:+ dquote
                +:+ "]" +:+ nl ]
     (dockerfileText env packageName r d)) ∧
  (timezone d ≠ "" →
   in_order [ "COPY --from=builder /etc/passwd /etc/passwd" +:+ nl;
              "ENV TZ=" +:+ timezone d +:+ nl;
              "COPY --from=builder /" +:+ packageName +:+ " /"
                +:+ packageName +:+ nl ]
     (dockerfileText env packageName r d)).
Proof.
  split; intros H; apply in_order_concat; unfold directives.
  - rewrite (decide_True _ _ H). do 10 apply sublist_inserts_l. reflexivity.
  - rewrite (decide_True _ _ H). do 5 apply sublist_inserts_l.
    do 3 apply sublist_cons. apply sublist_skip.
    apply (sublist_app [_] _ [_]); [reflexivity|].
    apply sublist_inserts_r. reflexivity.
Qed.

(** * Beyond the claims: the parent directory of an added file *)

Lemma split_go_elem e : ∀ cur rest,
  str_all (outside is_separator) e = true →
  GoStrings.split_go "/" 0 cur (e +:+ rest)
  = GoStrings.split_go "/" 0 (cur +:+ e) rest.
Proof.
  induction e as [|c e IH]; intros cur rest He.
  - by rewrite str_app_nil_r.
  - simpl in He. apply andb_true_iff in He as [Hc He].
    unfold outside in Hc. apply negb_true_iff in Hc.
    rewrite str_app_cons, split_go_sep_cons, Hc, IH by done.
    by rewrite str_app_assoc.
Qed.

Lemma split_go_Join comps : ∀ tail,
  Forall plain_elem comps → comps ≠ [] →
  GoStrings.split_go "/" 0 "" (GoStrings.Join comps "/" +:+ "/" +:+ tail)
  = comps ++ GoStrings.split_go "/" 0 "" tail.
Proof.
  induction comps as [|e [|e' l] IH]; intros tail Hall Hne; [done| |].
  - apply Forall_cons in Hall as [(_ & _ & _ & He) _]. simpl GoStrings.Join.
    rewrite split_go_elem by done. by rewrite str_app_nil_l.
  - apply Forall_cons in Hall as [(_ & _ & _ & He) Hall].
    change (GoStrings.Join (e :: e' :: l) "/")
      with (e +:+ "/" +:+ GoStrings.Join (e' :: l) "/").
    rewrite !str_app_assoc, split_go_elem by done.
    rewrite str_app_nil_l.
    change ("/" +:+ GoStrings.Join (e' :: l) "/" +:+ "/" +:+ tail)
      with (String "/" (GoStrings.Join (e' :: l) "/" +:+ "/" +:+ tail)).
    rewrite split_go_sep_cons. simpl is_separator.
    change (is_separator "/") with true. cbv iota.
    by rewrite IH.
Qed.

Lemma clean_elem_plain comps : ∀ out,
  Forall plain_elem comps →
  fold_left (Filepath.clean_elem false) comps out = rev comps ++ out.
Proof.
  induction comps as [|e l IH]; intros out Hall; [done|].
  apply Forall_cons in Hall as [(H1 & H2 & H3 & _) Hall]. simpl.
  unfold Filepath.clean_elem at 2.
  rewrite decide_False by (by intros [?|?]). rewrite decide_False by done.
  rewrite IH by done. by rewrite <- app_assoc.
Qed.

Lemma last_sep_end_cons c s :
  Filepath.last_sep_end (String c s) =
  match Filepath.last_sep_end s with
  | S k => S (S k)
  | O => if Ascii.eqb c "/" then 1 else 0
  end.
Proof. reflexivity. Qed.

Lemma last_sep_end_file P name :
  str_all (outside is_separator) name = true →
  Filepath.last_sep_end (P +:+ "/" +:+ name) = S (String.length P) ∧
  str_take (S (String.length P)) (P +:+ "/" +:+ name) = P +:+ "/".
Proof.
  intros Hn. induction P as [|c P [IH1 IH2]].
  - split; [|done]. rewrite str_app_nil_l.
    change ("/" +:+ name) with (String "/" name).
    by rewrite last_sep_end_cons, (last_sep_end_bare name Hn).
  - rewrite (str_app_cons c P). split.
    + by rewrite last_sep_end_cons, IH1.
    + change (String.length (String c P)) with (S (String.length P)).
      change (str_take (S (S (String.length P))) (String c (P +:+ "/" +:+ name)))
        with (String c (str_take (S (String.length P)) (P +:+ "/" +:+ name))).
      by rewrite IH2.
Qed.

Lemma Join_plain_head e l :
  plain_elem e →
  ∃ c s, GoStrings.Join (e :: l) "/" = String c s ∧ Ascii.eqb c "/" = false.
Proof.
  intros (Hne & _ & _ & He). destruct e as [|c e]; [done|].
  simpl in He. apply andb_true_iff in He as [Hc _].
  unfold outside, is_separator in Hc. apply negb_true_iff in Hc.
  destruct l; by eexists _, _.
Qed.

Lemma Dir_plain comps name :
  Forall plain_elem comps → comps ≠ [] →
  str_all (outside is_separator) name = true →
  Filepath.Dir (GoStrings.Join comps "/" +:+ "/" +:+ name)
  = GoStrings.Join comps "/".
Proof.
  intros Hall Hne Hn. unfold Filepath.Dir.
  destruct (last_sep_end_file (GoStrings.Join comps "/") name Hn) as [-> ->].
  destruct comps as [|e l]; [done|].
  destruct (Join_plain_head e l) as (c & s & HJ & Hc).
  { by apply Forall_cons in Hall as [? _]. }
  unfold Filepath.Clean. rewrite HJ at 1. rewrite str_app_cons, Hc.
  unfold GoStrings.Split.
  change (GoStrings.Join (e :: l) "/" +:+ "/")
    with (GoStrings.Join (e :: l) "/" +:+ "/" +:+ "").
  rewrite split_go_Join by done.
  simpl GoStrings.split_go.
  rewrite fold_left_app, (clean_elem_plain (e :: l)) by done.
  simpl fold_left. unfold Filepath.clean_elem.
  rewrite decide_True by (by left). rewrite app_nil_r.
  change (rev l ++ [e]) with (rev (e :: l)). rewrite rev_involutive.
  rewrite str_app_nil_l, HJ. done.
Qed.

(** X17: add-file with the path dir/name, where dir is made of one or
    more plain elements joined by "/" (none empty, "." or "..") and name has
    no "/", puts exactly dir, as it is written, in the folder set, and
    dir/name in the file set. *)
Theorem SetAdditionalFile_parent (comps : list string) (name : string)
    (d d' : Docen) :
  Forall plain_elem comps → comps ≠ [] →
  str_all (outside is_separator) name = true →
  SetAdditionalFile (GoStrings.Join comps "/" +:+ "/" +:+ name) d = Done d' →
  Filepath.Dir (GoStrings.Join comps "/" +:+ "/" +:+ name)
    = GoStrings.Join comps "/" ∧
  member (GoStrings.Join comps "/") (additionFolders d') ∧
  member (GoStrings.Join comps "/" +:+ "/" +:+ name) (additionFiles d').
Proof.
  intros Hall Hne Hn Hset. split; [by apply Dir_plain|].
  destruct d as [tz ver po [fo|] [fi|] tm]; try done.
  rewrite (SetAdditionalFile_Done _ _ fo fi), Dir_plain in Hset by done.
  injection Hset as <-. simpl.
  split; apply member_insert; by left.
Qed.

Lemma SetAdditionalFile_parent_witness :
  Filepath.Dir (GoStrings.Join ["another-folder"; "some-files"] "/" +:+ "/" +:+ "file")
    = GoStrings.Join ["another-folder"; "some-files"] "/" ∧
  member (GoStrings.Join ["another-folder"; "some-files"] "/")
    (additionFolders
       (returned zeroDocen
          (SetAdditionalFile "another-folder/some-files/file" config1))) ∧
  member (GoStrings.Join ["another-folder"; "some-files"] "/" +:+ "/" +:+ "file")
    (additionFiles
       (returned zeroDocen
          (SetAdditionalFile "another-folder/some-files/file" config1))).
Proof.
  apply (SetAdditionalFile_parent ["another-folder"; "some-files"] "file" config1).
  - repeat constructor; done.
  - done.
  - reflexivity.
  - vm_compute. reflexivity.
Defined.

(** * The lines of the text *)

Lemma str_snoc_inj a b c : a +:+ String c "" = b +:+ String c "" → a = b.
Proof.
  revert b. induction a as [|x a IH]; intros [|y b] H; [done| | |].
  - rewrite str_app_nil_l, str_app_cons in H. injection H as _ H.
    symmetry in H. by apply str_app_eq_nil in H as [_ ?].
  - rewrite str_app_nil_l, str_app_cons in H. injection H as _ H.
    by apply str_app_eq_nil in H as [_ ?].
  - rewrite !str_app_cons in H. injection H as -> H. f_equal. by apply IH.
Qed.

Lemma lines_from_body body : ∀ cur rest,
  no_line_feed body →
  lines_from cur (body +:+ nl +:+ rest) = (cur +:+ body) :: lines_from "" rest.
Proof.
  unfold no_line_feed. induction body as [|c body IH]; intros cur rest Hb.
  - by rewrite str_app_nil_r.
  - simpl in Hb. apply andb_true_iff in Hb as [Hc Hb].
    unfold outside in Hc. apply negb_true_iff in Hc.
    rewrite str_app_cons. simpl. rewrite Hc, IH by done.
    by rewrite str_app_assoc.
Qed.

(** The lines of a text written one line at a time are what was written,
    and the empty line after the last line feed. *)
Lemma text_lines_concat chunks :
  Forall one_line chunks →
  ∀ l, l ∈ text_lines (str_concat chunks) ↔
       l = "" ∨ ∃ c, c ∈ chunks ∧ c = l +:+ nl.
Proof.
  unfold text_lines. induction 1 as [|c cs (body & -> & Hb) _ IH]; intros l.
  - simpl. rewrite list_elem_of_singleton. split; [by left|].
    intros [?|(? & H & _)]; [done|]. by apply elem_of_nil in H.
  - simpl str_concat. rewrite str_app_assoc, lines_from_body by done.
    rewrite str_app_nil_l, elem_of_cons, IH. split.
    + intros [->|[?|(c & ? & ?)]]; [|by left|].
      * right. eexists. split; [by left|done].
      * right. exists c. split; [by right|done].
    + intros [?|(c & [->|?]%elem_of_cons & Hc)]; [by auto| |].
      * left. symmetry. by apply (str_snoc_inj _ _ "010").
      * right. right. by exists c.
Qed.

Lemma has_directive_chunks keyword chunks :
  Forall one_line chunks →
  keyword ≠ "" →
  str_all (λ x, negb (Ascii.eqb x "010")) keyword = true →
  has_directive keyword (str_concat chunks) ↔
  ∃ c, c ∈ chunks ∧ starts_with keyword c = true.
Proof.
  intros Hone Hne Hkw. unfold has_directive. split.
  - intros (l & Hl & Hs). apply (text_lines_concat _ Hone) in Hl as [->|(c & Hc & ->)].
    + by destruct keyword.
    + eexists. split; [done|]. change nl with (String "010" "").
      by rewrite starts_with_snoc.
  - intros (c & Hc & Hs). pose proof Hone as Hall.
    rewrite Forall_forall in Hall. destruct (Hall _ Hc) as (body & -> & _).
    exists body. split.
    + apply (text_lines_concat _ Hone). right. eauto.
    + change nl with (String "010" "") in Hs. by rewrite starts_with_snoc in Hs.
Qed.

Lemma one_line_nl : one_line nl.
Proof. by exists "". Qed.

Lemma one_line_app a b : no_line_feed a → one_line b → one_line (a +:+ b).
Proof.
  intros Ha (body & -> & Hb). exists (a +:+ body). split.
  - by rewrite str_app_assoc.
  - unfold no_line_feed in *. by rewrite str_all_app, Ha, Hb.
Qed.

(** Every directive is one line when no string put in it has a line
    feed. *)
Lemma directives_one_line env packageName r d :
  no_line_feed (version d) → no_line_feed (timezone d) →
  no_line_feed (port d) → no_line_feed packageName →
  Forall no_line_feed (mkdir_range r) →
  Forall no_line_feed (folders_range r) →
  Forall no_line_feed (files_range r) →
  Forall one_line (directives env packageName r d).
Proof.
  intros Hv Htz Hpo Hpkg Hmk Hfo Hfi.
  rewrite Forall_forall in Hmk, Hfo, Hfi. apply Forall_forall. intros c Hc.
  directive_cases Hc;
    unfold mkdirDirective, copyDirective, testDirective, buildDirective,
      buildCommand;
    try destruct (isVendorMode env);
    repeat (apply one_line_app; [by auto|]); apply one_line_nl.
Qed.

(** ** The project name is one line *)

Lemma str_all_init P s : str_all P s = true → str_all P (str_init s) = true.
Proof.
  induction s as [|c s IH]; [done|]. simpl. intros [Hc Hs]%andb_true_iff.
  destruct s; [done|]. simpl in *. rewrite Hc. by apply IH.
Qed.

Lemma before_byte_Some_no_nl s : ∀ line,
  before_byte "010" s = Some line → no_line_feed line.
Proof.
  unfold no_line_feed. induction s as [|x s IH]; intros line; [done|]. simpl.
  destruct (Ascii.eqb x "010") eqn:Hx; [by intros [= <-]|].
  destruct (before_byte "010" s) as [line'|]; [|done]. intros [= <-].
  simpl. unfold outside at 1, is_newline. rewrite Hx. by apply IH.
Qed.

Lemma before_byte_None_no_nl s :
  before_byte "010" s = None → no_line_feed s.
Proof.
  unfold no_line_feed. induction s as [|x s IH]; [done|]. simpl.
  destruct (Ascii.eqb x "010") eqn:Hx; [done|].
  destruct (before_byte "010" s) as [line'|]; [done|]. intros _.
  unfold outside at 1, is_newline. rewrite Hx. by apply IH.
Qed.

Lemma str_take_all s : ∀ n, String.length s ≤ n → str_take n s = s.
Proof.
  induction s as [|c s IH]; intros n Hn; [by destruct n|].
  destruct n; [simpl in Hn; lia|]. simpl in *. rewrite IH by lia. done.
Qed.

Lemma drop_cr_no_nl line : no_line_feed line → no_line_feed (Bufio.drop_cr line).
Proof.
  unfold Bufio.drop_cr, no_line_feed. intros H.
  destruct (str_last line) as [c|]; [|done].
  destruct (Ascii.eqb c cr); [by apply str_all_init|done].
Qed.

Lemma ReadLine_no_nl content line :
  Bufio.ReadLine content = Some line → no_line_feed line.
Proof.
  unfold Bufio.ReadLine.
  destruct (before_byte "010" (str_take Bufio.defaultBufSize content))
    as [l|] eqn:Hb.
  - intros [= <-]. by apply drop_cr_no_nl, (before_byte_Some_no_nl _ _ Hb).
  - apply before_byte_None_no_nl in Hb. case_decide as Hlen.
    + intros [= <-]. by apply drop_cr_no_nl.
    + rewrite str_take_all in Hb by lia. destruct content; [done|].
      by intros [= <-].
Qed.

Lemma replace_go_all P old new s : ∀ skip,
  str_all P new = true → str_all P s = true →
  str_all P (GoStrings.replace_go old new skip s) = true.
Proof.
  induction s as [|c s IH]; intros skip Hnew Hs; [done|]. simpl in Hs.
  apply andb_true_iff in Hs as [Hc Hs]. destruct skip as [|k].
  - rewrite replace_go_cons. destruct (starts_with old (String c s)).
    + rewrite str_all_app, Hnew. by apply IH.
    + simpl. rewrite Hc. by apply IH.
  - simpl. by apply IH.
Qed.

Lemma split_go_all P sep s : ∀ skip cur x,
  str_all P cur = true → str_all P s = true →
  x ∈ GoStrings.split_go sep skip cur s → str_all P x = true.
Proof.
  induction s as [|c s IH]; intros skip cur x Hcur Hs Hx.
  - apply list_elem_of_singleton in Hx as ->. done.
  - simpl in Hs. apply andb_true_iff in Hs as [Hc Hs]. simpl in Hx.
    destruct skip as [|k]; [|exact (IH _ _ _ Hcur Hs Hx)].
    destruct (starts_with sep (String c s)).
    + apply elem_of_cons in Hx as [->|Hx]; [done|].
      exact (IH _ "" _ eq_refl Hs Hx).
    + refine (IH _ _ _ _ Hs Hx). rewrite str_all_app, Hcur. simpl. by rewrite Hc.
Qed.

Lemma parseLine_no_nl data name :
  no_line_feed data → parseLine data = Done name → no_line_feed name.
Proof.
  unfold no_line_feed, parseLine. intros Hd.
  pose proof (replace_go_all (outside is_newline) "module " "" data 0
                eq_refl Hd) as Hm.
  fold (GoStrings.ReplaceAll data "module " "") in Hm.
  destruct (GoStrings.ReplaceAll data "module " "") as [|c m]; [done|].
  match goal with
  | |- context [GoStrings.Split ?x "/"] =>
      assert (str_all (outside is_newline) x = true) as Hx
  end.
  { destruct (Ascii.eqb c "034"); [|done]. by apply replace_go_all. }
  match goal with
  | |- context [?l !! ?i] => destruct (l !! i) as [seg|] eqn:Hseg; [|done]
  end.
  intros [= <-]. apply replace_go_all; [done|].
  apply list_elem_of_lookup_2 in Hseg. by eapply (split_go_all _ "/" _ 0 "").
Qed.

Lemma getPackageName_no_nl env packageName :
  getPackageName env = Done packageName → no_line_feed packageName.
Proof.
  unfold getPackageName, parsePackageName.
  destruct (openFile env goModFile) as [content|e]; [|by intros [= <-]].
  destruct (Bufio.ReadLine content) as [data|] eqn:Hr; [|by intros [= <-]].
  apply parseLine_no_nl. by apply (ReadLine_no_nl content).
Qed.

(** ** The configuration of [New] is one line *)

Lemma version_char_no_nl c :
  Regexp.version_char c = true → outside is_newline c = true.
Proof.
  unfold outside, is_newline. destruct (Ascii.eqb c "010") eqn:Hc; [|done].
  apply Ascii.eqb_eq in Hc as ->. by vm_compute.
Qed.

Lemma str_filter_no_nl s : no_line_feed (str_filter Regexp.version_char s).
Proof.
  unfold no_line_feed. induction s as [|c s IH]; [done|]. simpl.
  destruct (Regexp.version_char c) eqn:Hc; [|done]. simpl.
  by rewrite version_char_no_nl, IH.
Qed.

Lemma getVersion_no_nl env : no_line_feed (getVersion env).
Proof.
  rewrite getVersion_unfold.
  pose proof (find_go_concat Regexp.version_char (runVer env) "") as Hc.
  rewrite str_app_nil_l in Hc.
  fold (Regexp.FindAllString Regexp.version_char (runVer env)) in Hc.
  destruct (Regexp.FindAllString _ _) as [|r rs]; [done|].
  rewrite Hc. unfold no_line_feed. rewrite str_all_app.
  by rewrite (str_filter_no_nl (runVer env)).
Qed.

Lemma New_one_line env :
  ∃ d, New env = Done d ∧ one_line_config d ∧ port d = "" ∧ timezone d = "".
Proof.
  unfold New. destruct (getAdditionalFolders_keys env) as (m & -> & Hm).
  eexists. split; [done|]. split; [|done].
  split; [apply getVersion_no_nl|]. do 2 (split; [done|]). split.
  - apply Forall_forall. intros n Hn. simpl in Hn.
    apply keys_elem, Hm in Hn as [[-> | [-> | [-> | ->]]] _]; done.
  - simpl. rewrite map_to_list_empty. constructor.
Qed.

Lemma ranges_one_line d r :
  one_line_config d → ranges_of d r →
  Forall no_line_feed (mkdir_range r) ∧
  Forall no_line_feed (folders_range r) ∧
  Forall no_line_feed (files_range r).
Proof.
  intros (_ & _ & _ & Hfo & Hfi) (H1 & H2 & H3). by rewrite H1, H2, H3.
Qed.

Lemma assembled_one_line env r d text :
  one_line_config d → ranges_of d r →
  assembledText env r d = Done text →
  ∃ packageName,
    getPackageName env = Done packageName ∧
    text = str_concat (directives env packageName r d) ∧
    Forall one_line (directives env packageName r d).
Proof.
  intros Hd Hr. unfold assembledText.
  destruct (getPackageName env) as [pkg|] eqn:Hpkg; [|done]. intros [= <-].
  exists pkg. split; [done|]. split; [done|].
  destruct (ranges_one_line _ _ Hd Hr) as (? & ? & ?).
  destruct Hd as (? & ? & ? & _).
  apply directives_one_line; try done. by apply (getPackageName_no_nl env).
Qed.

(** * The optional directives in the text *)

Lemma optional_lines env packageName r d :
  Forall one_line (directives env packageName r d) →
  (has_directive "EXPOSE " (dockerfileText env packageName r d)
     ↔ port d ≠ "") ∧
  (has_directive "ENV TZ=" (dockerfileText env packageName r d)
     ↔ timezone d ≠ "").
Proof.
  intros Hone. unfold dockerfileText.
  rewrite !(has_directive_chunks _ _ Hone) by done. split; split.
  - intros (c & Hc & Hs). by destruct (directive_expose_only _ _ _ _ _ Hc Hs).
  - intros H. eexists. split; [by apply directive_expose|done].
  - intros (c & Hc & Hs). by destruct (directive_timezone_only _ _ _ _ _ Hc Hs).
  - intros H. eexists. split; [by apply directive_timezone|done].
Qed.

(** C7, as amended: for every configuration whose version, port, timezone,
    folders and files have no line feed, and every order of the map
    iterations, the generated text has an expose directive (a line that
    begins with EXPOSE) if and only if the port is not empty, and a timezone
    directive (a line that begins with ENV TZ=) if and only if the timezone
    is not empty; in particular the text generated for a configuration just
    made by [New] has neither, and [GenerateDockerfile] then panics only
    where the name resolver does and returns only the error of the
    write. *)
Theorem optional_directives_in_text (env0 env : Env) (r : ranges)
    (d : Docen) (text : string) :
  one_line_config d →
  ranges_of d r →
  assembledText env r d = Done text →
  (has_directive "EXPOSE " text ↔ port d ≠ "") ∧
  (has_directive "ENV TZ=" text ↔ timezone d ≠ "") ∧
  ∃ d0,
    New env0 = Done d0 ∧
    (∀ r0 text0,
       ranges_of d0 r0 → assembledText env r0 d0 = Done text0 →
       ¬ has_directive "EXPOSE " text0 ∧ ¬ has_directive "ENV TZ=" text0) ∧
    (∀ r0 p, GenerateDockerfile env r0 d0 = Panics p →
             getPackageName env = Panics p) ∧
    (∀ r0 e, GenerateDockerfile env r0 d0 = Done (Some e) →
             ∃ text0, createDockerfile env text0 = Some e).
Proof.
  intros Hd Hr Htext.
  destruct (assembled_one_line _ _ _ _ Hd Hr Htext) as (pkg & Hpkg & -> & Hone).
  destruct (optional_lines _ _ _ _ Hone) as [He Ht].
  split; [exact He|]. split; [exact Ht|].
  destruct (New_one_line env0) as (d0 & HNew & Hd0 & Hport & Htz).
  exists d0. split; [done|]. split; [|split].
  - intros r0 text0 Hr0 Htext0.
    destruct (assembled_one_line _ _ _ _ Hd0 Hr0 Htext0)
      as (pkg0 & _ & -> & Hone0).
    destruct (optional_lines _ _ _ _ Hone0) as [He0 Ht0].
    rewrite He0, Ht0, Hport, Htz. by split; intros ?.
  - intros r0 p. unfold GenerateDockerfile, assembledText.
    destruct (getPackageName env); simpl; [discriminate|by intros [= ->]].
  - intros r0 e. unfold GenerateDockerfile, assembledText.
    destruct (getPackageName env); simpl; [|discriminate].
    intros [= H]. eauto.
Qed.

Lemma optional_directives_in_text_witness :
  (has_directive "EXPOSE "
     (returned "" (assembledText env1 (ranges_by_keys scenario1) scenario1))
     ↔ port scenario1 ≠ "") ∧
  (has_directive "ENV TZ="
     (returned "" (assembledText env1 (ranges_by_keys scenario1) scenario1))
     ↔ timezone scenario1 ≠ "") ∧
  ∃ d0,
    New env_dirs = Done d0 ∧
    (∀ r0 text0,
       ranges_of d0 r0 → assembledText env1 r0 d0 = Done text0 →
       ¬ has_directive "EXPOSE " text0 ∧ ¬ has_directive "ENV TZ=" text0) ∧
    (∀ r0 p, GenerateDockerfile env1 r0 d0 = Panics p →
             getPackageName env1 = Panics p) ∧
    (∀ r0 e, GenerateDockerfile env1 r0 d0 = Done (Some e) →
             ∃ text0, createDockerfile env1 text0 = Some e).
Proof.
  apply (optional_directives_in_text env_dirs env1 (ranges_by_keys scenario1)
           scenario1).
  - vm_compute. repeat constructor.
  - repeat split; reflexivity.
  - vm_compute. reflexivity.
Defined.

(** C7 fails as stated: the configuration made by [New] in [env1] and
    given the timezone of two lines "UTC", "EXPOSE 80" has an empty port,
    and the text generated for it has the line EXPOSE 80. *)
Lemma timezone_writes_expose_line :
  New env1 = Done config1 ∧
  config_two_lines = SetTimezone ("UTC" +:+ nl +:+ "EXPOSE 80") config1 ∧
  port config_two_lines = "" ∧
  ∀ r text,
    ranges_of config_two_lines r →
    assembledText env1 r config_two_lines = Done text →
    "EXPOSE 80" ∈ text_lines text ∧
    ¬ (has_directive "EXPOSE " text ↔ port config_two_lines ≠ "").
Proof.
  split; [by vm_compute|]. split; [by vm_compute|]. split; [done|].
  intros [o1 o2 o3] text (H1 & H2 & H3). vm_compute in H1, H2, H3.
  apply Permutation_nil_r in H1, H2, H3. subst o1 o2 o3. intros [= <-].
  assert ("EXPOSE 80" ∈ text_lines
            (dockerfileText env1 "docen"
               {| mkdir_range := []; folders_range := []; files_range := [] |}
               config_two_lines)) as Hin.
  { vm_compute. repeat constructor. }
  split; [exact Hin|]. intros [Hport _].
  apply Hport; [|done]. by exists "EXPOSE 80".
Qed.

(** * The vendor flag in the build directive *)

Lemma contains_skip p c s :
  starts_with p (String c s) = false → contains p (String c s) = contains p s.
Proof. intros H. by rewrite contains_unfold, H. Qed.

Lemma buildLinePlain_flag packageName :
  contains "-mod=vendor" (buildLinePlain packageName)
  = contains "-mod=vendor" packageName.
Proof.
  unfold buildLinePlain, dquote. rewrite !str_app_cons, !str_app_nil_l.
  rewrite !contains_skip by reflexivity.
  change nl with (String "010" ""). by rewrite contains_snoc.
Qed.

Lemma buildLineVendor_flag packageName :
  contains "-mod=vendor" (buildLineVendor packageName) = true.
Proof.
  apply contains_spec.
  exists buildKeyword,
    (" -ldflags=" +:+ dquote +:+ "-w -s" +:+ dquote +:+ " -o /"
       +:+ packageName +:+ nl).
  reflexivity.
Qed.

(** C8, as amended: when the resolved project name does not contain the
    text -mod=vendor, the build directive, the one directive written that
    begins with RUN CGO_ENABLED=0 GOOS=linux GOARCH=amd64 go build, contains
    -mod=vendor if and only if the listing of the working directory
    succeeds and has a directory named vendor: it is then the build line
    with the flag before -ldflags, and otherwise the build line without it,
    in which -mod=vendor does not occur.  The directive is in the text, and
    when no string of the configuration has a line feed it is the only line
    of the text that begins with the build command. *)
Theorem vendor_flag_in_build_line (env : Env) (packageName : string)
    (r : ranges) (d : Docen) :
  getPackageName env = Done packageName →
  contains "-mod=vendor" packageName = false →
  ∃ b,
    b ∈ directives env packageName r d ∧
    occurs b (dockerfileText env packageName r d) ∧
    starts_with buildKeyword b = true ∧
    (∀ c, c ∈ directives env packageName r d →
          starts_with buildKeyword c = true → c = b) ∧
    (contains "-mod=vendor" b = true ↔ vendor_listed env) ∧
    (vendor_listed env → b = buildLineVendor packageName) ∧
    (¬ vendor_listed env →
       b = buildLinePlain packageName ∧ contains "-mod=vendor" b = false) ∧
    (one_line_config d → ranges_of d r →
     ∀ l, l ∈ text_lines (dockerfileText env packageName r d) →
          starts_with buildKeyword l = true → l +:+ nl = b).
Proof.
  intros Hpkg Hfree. exists (buildDirective (vendorTagOf env) packageName).
  split; [apply directive_build|].
  split; [apply occurs_in_concat, directive_build|].
  split; [reflexivity|].
  split; [apply (directive_build_only env packageName r d)|].
  assert (buildDirective (vendorTagOf env) packageName =
          if isVendorMode env then buildLineVendor packageName
          else buildLinePlain packageName) as Hb.
  { unfold vendorTagOf. by destruct (isVendorMode env). }
  rewrite Hb, <- !isVendorMode_listed.
  split; [|split; [|split]].
  - destruct (isVendorMode env).
    + by rewrite buildLineVendor_flag.
    + by rewrite buildLinePlain_flag, Hfree.
  - by intros ->.
  - intros H. apply not_true_is_false in H. rewrite H.
    by rewrite buildLinePlain_flag.
  - intros Hd Hr l Hl Hs. rewrite <- Hb.
    destruct (ranges_one_line _ _ Hd Hr) as (? & ? & ?).
    destruct Hd as (? & ? & ? & _).
    assert (Forall one_line (directives env packageName r d)) as Hone.
    { apply directives_one_line; try done.
      by apply (getPackageName_no_nl env). }
    apply (text_lines_concat _ Hone) in Hl as [->|(c & Hc & ->)]; [done|].
    apply (directive_build_only env packageName r d); [done|].
    change nl with (String "010" ""). by rewrite starts_with_snoc.
Qed.

Lemma vendor_flag_in_build_line_witness :
  ∃ b,
    b ∈ directives env_vendor "docen" (ranges_by_keys scenario1) scenario1 ∧
    occurs b (dockerfileText env_vendor "docen" (ranges_by_keys scenario1)
                scenario1) ∧
    starts_with buildKeyword b = true ∧
    (∀ c, c ∈ directives env_vendor "docen" (ranges_by_keys scenario1)
                scenario1 →
          starts_with buildKeyword c = true → c = b) ∧
    (contains "-mod=vendor" b = true ↔ vendor_listed env_vendor) ∧
    (vendor_listed env_vendor → b = buildLineVendor "docen") ∧
    (¬ vendor_listed env_vendor →
       b = buildLinePlain "docen" ∧ contains "-mod=vendor" b = false) ∧
    (one_line_config scenario1 →
     ranges_of scenario1 (ranges_by_keys scenario1) →
     ∀ l, l ∈ text_lines
                (dockerfileText env_vendor "docen" (ranges_by_keys scenario1)
                   scenario1) →
          starts_with buildKeyword l = true → l +:+ nl = b).
Proof.
  apply (vendor_flag_in_build_line env_vendor "docen").
  - vm_compute. reflexivity.
  - reflexivity.
Defined.

(** C8 fails as stated: in [env_comment] the listing has no vendor
    directory and the first line of the manifest ends with a comment; the
    project name is then " -mod=vendor is used", and the build directive of
    every configuration contains -mod=vendor. *)
Lemma build_line_flag_from_project_name :
  getPackageName env_comment = Done " -mod=vendor is used" ∧
  ¬ vendor_listed env_comment ∧
  ∀ r d,
    ∃ b,
      b ∈ directives env_comment " -mod=vendor is used" r d ∧
      starts_with buildKeyword b = true ∧
      b = buildLinePlain " -mod=vendor is used" ∧
      contains "-mod=vendor" b = true.
Proof.
  split; [by vm_compute|]. split.
  { rewrite <- isVendorMode_listed. by vm_compute. }
  intros r d. exists (buildDirective (vendorTagOf env_comment) " -mod=vendor is used").
  split; [apply directive_build|]. by vm_compute.
Qed.
